(** * music-metadata: the public entry points of [lib/core.ts]

    A shallow embedding of [src/lib/core.ts] (music-metadata 4.8.0) and of
    the interfaces of [lib/type.ts] it relies on, with the properties the
    specification states about them.

    Part I holds the definitions:
    - [Js]: the fragment of JavaScript semantics the code depends on
      (how a call ends, truthiness of numbers, [Math.round], the property
      names every object inherits);
    - [ratingToStars] and [orderTags];
    - the interfaces [ITag], [IOptions], [ITokenizer], [IRandomReader],
      [IAudioMetadata];
    - [Collaborators]: the modules [core.ts] imports and calls;
    - the [Async] monad over a store of mutable objects and a trace of the
      calls that leave [core.ts];
    - [scanAppendingHeaders], [parseFromTokenizer], [parseBuffer],
      [parseStream];
    - the procedures of the specification that the code is compared with;
    - [Trailer]: the trailer probes over an in-memory buffer, and [Sample]:
      inputs on which the entry points are run.

    Part II holds the theorems. *)

From Stdlib Require Import ZArith QArith Qround Lia Lqa.
From Stdlib.Strings Require Import Byte.
From stdpp Require Import base option list strings gmap fin_maps.

Local Open Scope Z_scope.

(* ===================================================================== *)
(** * Part I: definitions *)
(* ===================================================================== *)

(** ** JavaScript fragment *)

Module Js.

(** Errors the code can raise or receive. [TypeError] is what the engine
    raises on a property read of [undefined] and on a call of something that
    is not a function; [HostError] stands for whatever a reader or a parser
    fails with, and for a reference that is not in the store. *)
Inductive Error : Type :=
  | TypeError (msg : string)
  | HostError (msg : string).

(** How a call ends. A function that is not [async] returns or throws; a
    promise resolves or rejects. [Ok] covers a normal return and a resolved
    promise. *)
Inductive Outcome (A : Type) : Type :=
  | Ok (a : A)
  | Thrown (e : Error)
  | Rejected (e : Error).
Arguments Ok {A} a.
Arguments Thrown {A} e.
Arguments Rejected {A} e.

(** [ToBoolean] of a [number | undefined] that holds a byte count or an
    offset: [undefined] and [0] are falsy. *)
Definition truthyNum (n : option Z) : bool :=
  match n with
  | Some v => negb (v =? 0)
  | None => false
  end.

(** [Math.round] on a finite number: the nearest integer, a tie going
    towards +infinity. A finite double is a rational and [Math.round] is
    exact on it. *)
Definition Math_round (x : Q) : Z := Qfloor (x + (1 # 2))%Q.

(** The property names an object created by [{}] inherits from
    [Object.prototype]. *)
Definition objectPrototypeKeys : list string :=
  [ "constructor"; "__defineGetter__"; "__defineSetter__"; "hasOwnProperty";
    "__lookupGetter__"; "__lookupSetter__"; "isPrototypeOf";
    "propertyIsEnumerable"; "toString"; "valueOf"; "__proto__";
    "toLocaleString" ]%string.

End Js.

Import Js.

(** ** [ratingToStars] *)

(** [rating === undefined ? 0 : 1 + Math.round(rating * 4)].
    A multiplication by 4 only changes the exponent of a double, so on
    ratings the rational product is the product the engine computes. *)
Definition ratingToStars (rating : option Q) : Z :=
  match rating with
  | None => 0
  | Some r => 1 + Math_round (r * 4)%Q
  end.

(** ** [orderTags] *)

Module ITag.
(** [interface ITag { id: string, value: any }] *)
Record t (V : Type) : Type := { id : string; value : V }.
Arguments id {V} _.
Arguments value {V} _.
End ITag.

(** What [tags[key]] evaluates to when [tags] started as [{}] and the loop
    only ever stored arrays in it. *)
Inductive Property (V : Type) : Type :=
  | PArray (vs : list V)
  | PInherited (key : string)
  | PUndefined.
Arguments PArray {V} vs.
Arguments PInherited {V} key.
Arguments PUndefined {V}.

Section OrderTags.
Context {V : Type}.

(** [tags[key]]: an own property first, then the prototype chain. The own
    properties are the arrays the loop has stored: an iteration that would
    store anything else throws in the same statement, and the object is
    lost with it. *)
Definition getProperty (tags : gmap string (list V)) (key : string) : Property V :=
  match tags !! key with
  | Some vs => PArray vs
  | None =>
      if bool_decide (key ∈ objectPrototypeKeys) then PInherited key
      else PUndefined
  end.

(** [p || []]: every object, function and array is truthy, the empty array
    included. *)
Definition orEmptyArray (p : Property V) : Property V :=
  match p with
  | PUndefined => PArray []
  | _ => p
  end.

(** [(tags[key] = target).push(value)]: the assignment stores [target], and
    [push] appends to that same array; on anything but an array [push] is
    [undefined] and the call throws. *)
Definition assignAndPush (tags : gmap string (list V)) (key : string)
    (target : Property V) (v : V) : Outcome (gmap string (list V)) :=
  match target with
  | PArray vs => Ok (<[key := vs ++ [v]]> tags)
  | _ => Thrown (TypeError "push is not a function")
  end.

(** The body of [for (const tag of nativeTags)]. *)
Fixpoint orderTags_loop (tags : gmap string (list V)) (nativeTags : list (ITag.t V))
    : Outcome (gmap string (list V)) :=
  match nativeTags with
  | [] => Ok tags
  | tag :: rest =>
      match assignAndPush tags (ITag.id tag)
              (orEmptyArray (getProperty tags (ITag.id tag))) (ITag.value tag) with
      | Ok tags' => orderTags_loop tags' rest
      | Thrown e => Thrown e
      | Rejected e => Rejected e
      end
  end.

Definition orderTags (nativeTags : list (ITag.t V)) : Outcome (gmap string (list V)) :=
  orderTags_loop ∅ nativeTags.

(** The values of the tags that bear [key], in arrival order. *)
Definition valuesOf (key : string) (nativeTags : list (ITag.t V)) : list V :=
  ITag.value <$> filter (λ tag, ITag.id tag = key) nativeTags.

(** What a key holds once the values [ws] have been pushed, when it held
    [own] before: no property if nothing was there and nothing arrived. *)
Definition collected (own : option (list V)) (ws : list V) : option (list V) :=
  match own, ws with
  | Some vs, _ => Some (vs ++ ws)
  | None, [] => None
  | None, _ => Some ws
  end.

End OrderTags.

(** The number of values a dictionary holds, over all its keys. *)
Definition valueCount {V : Type} (dict : gmap string (list V)) : nat :=
  map_fold (λ _ vs n, (length vs + n)%nat) 0%nat dict.

(** ** Interfaces of [lib/type.ts] *)

Module IOptions.
(** [interface IOptions]: every member is optional. [observer] is a function
    object, held by reference. *)
Record t : Type := {
  path : option string;
  fileSize : option Z;
  native : option bool;
  duration : option bool;
  skipCovers : option bool;
  skipPostHeaders : option bool;
  observer : option positive;
  apeOffset : option Z
}.

(** The object literal [{}]. *)
Definition empty : t :=
  {| path := None; fileSize := None; native := None; duration := None;
     skipCovers := None; skipPostHeaders := None; observer := None;
     apeOffset := None |}.

(** [options.apeOffset = v] *)
Definition set_apeOffset (v : option Z) (o : t) : t :=
  {| path := path o; fileSize := fileSize o; native := native o;
     duration := duration o; skipCovers := skipCovers o;
     skipPostHeaders := skipPostHeaders o; observer := observer o;
     apeOffset := v |}.
End IOptions.

Module ITokenizer.
(** The data members of strtok3's [ITokenizer]: [fileSize?: number],
    [position: number] and the bytes it reads from. *)
Record t : Type := {
  fileSize : option Z;
  position : Z;
  source : list byte
}.

(** [tokenizer.fileSize = v] *)
Definition set_fileSize (v : option Z) (k : t) : t :=
  {| fileSize := v; position := position k; source := source k |}.
End ITokenizer.

Module IRandomReader.
(** [interface IRandomReader]: [randomRead position length] is the bytes a
    read of [length] bytes at [position] delivers, or the error the promise
    rejects with. *)
Record t : Type := {
  fileSize : Z;
  randomRead : Z → Z → Outcome (list byte)
}.
End IRandomReader.

Module IParserWarning.
Record t : Type := { message : string }.
End IParserWarning.

Module IQualityInformation.
Record t : Type := { warnings : list IParserWarning.t }.
End IQualityInformation.

Module IAudioMetadata.
(** [interface IAudioMetadata extends INativeAudioMetadata]. The members of
    [IFormat], [INativeTags] and [ICommonTagsResult] play no part in
    [core.ts]; they stay abstract. *)
Record t (IFormat INativeTags ICommonTagsResult : Type) : Type := {
  format : IFormat;
  native : INativeTags;
  quality : IQualityInformation.t;
  common : ICommonTagsResult
}.
End IAudioMetadata.

(** ** The store *)

(** Option objects and tokenizers are mutable and passed by reference. *)
Abbreviation ref := positive.

Record Store : Type := {
  optionObjects : gmap positive IOptions.t;
  tokenizerObjects : gmap positive ITokenizer.t
}.

Definition set_options (f : gmap positive IOptions.t → gmap positive IOptions.t)
    (s : Store) : Store :=
  {| optionObjects := f (optionObjects s); tokenizerObjects := tokenizerObjects s |}.

Definition set_tokenizers (f : gmap positive ITokenizer.t → gmap positive ITokenizer.t)
    (s : Store) : Store :=
  {| optionObjects := optionObjects s; tokenizerObjects := f (tokenizerObjects s) |}.

(** ** Collaborators *)

(** The calls that leave [core.ts], as the trace records them. *)
Inductive Event : Type :=
  | CallHasID3v1Header
  | CallGetLyricsHeaderLength
  | CallFindApeFooterOffset (offset : Z)
  | CallFromStream
  | CallFromBuffer
  | CallParseOnContentType (tokenizer : ref) (mimeType : option string)
      (options : option ref).

(** The events of the trailer scan. *)
Definition scanEvent (ev : Event) : bool :=
  match ev with
  | CallHasID3v1Header | CallGetLyricsHeaderLength | CallFindApeFooterOffset _ => true
  | _ => false
  end.

(** What [core.ts] imports: Node's [Stream.Readable], strtok3's [fromStream]
    and [fromBuffer], [ParserFactory.parseOnContentType],
    [RandomBufferReader], [hasID3v1Header], [getLyricsHeaderLength] and
    [APEv2Parser.findApeFooterOffset]. The three probes only read through the
    reader they are given. The parser works on the store: it reads the
    tokenizer and the options it is handed, and may write to them. *)
Class Collaborators : Type := {
  Readable : Type;
  IFormat : Type;
  INativeTags : Type;
  ICommonTagsResult : Type;
  fromStream : Readable → ITokenizer.t;
  fromBuffer : list byte → ITokenizer.t;
  parseOnContentType :
    ref → option string → option ref → Store →
    Outcome (IAudioMetadata.t IFormat INativeTags ICommonTagsResult) * Store;
  RandomBufferReader : list byte → IRandomReader.t;
  hasID3v1Header : IRandomReader.t → Outcome bool;
  getLyricsHeaderLength : IRandomReader.t → Outcome Z;
  findApeFooterOffset : IRandomReader.t → Z → Outcome (option Z)
}.

(** ** Promises over the store *)

Record World : Type := {
  store : Store;
  trace : list Event
}.

Definition Async (A : Type) : Type := World → Outcome A * World.

Definition ret {A} (a : A) : Async A := λ w, (Ok a, w).

Definition bind {A B} (m : Async A) (k : A → Async B) : Async B :=
  λ w, match m w with
       | (Ok a, w') => k a w'
       | (Thrown e, w') => (Thrown e, w')
       | (Rejected e, w') => (Rejected e, w')
       end.

Declare Scope async_scope.
Delimit Scope async_scope with async.
Notation "x <- m ;; k" := (bind m (λ x, k))
  (at level 100, m at next level, right associativity) : async_scope.
Notation "m ;;; k" := (bind m (λ _, k))
  (at level 100, right associativity) : async_scope.
Local Open Scope async_scope.

Definition throw {A} (e : Error) : Async A := λ w, (Thrown e, w).

(** [await p]: a rejection of [p] is thrown at the [await]. *)
Definition await {A} (m : Async A) : Async A :=
  λ w, match m w with
       | (Rejected e, w') => (Thrown e, w')
       | r => r
       end.

(** The body of an [async function]: what it throws rejects its promise. *)
Definition async {A} (m : Async A) : Async A :=
  λ w, match m w with
       | (Thrown e, w') => (Rejected e, w')
       | r => r
       end.

(** A call that leaves [core.ts] and does not touch the store. *)
Definition call {A} (ev : Event) (r : Outcome A) : Async A :=
  λ w, (r, {| store := store w; trace := trace w ++ [ev] |}).

(** A call that leaves [core.ts] and works on the store. *)
Definition callOnStore {A} (ev : Event) (f : Store → Outcome A * Store) : Async A :=
  λ w, let '(r, s) := f (store w) in
       (r, {| store := s; trace := trace w ++ [ev] |}).

(** [options.member] where [options] may be [undefined]. *)
Definition readOptions {A} (options : option ref) (member : IOptions.t → A) : Async A :=
  λ w, match options with
       | None => (Thrown (TypeError "Cannot read property of undefined"), w)
       | Some l =>
           match optionObjects (store w) !! l with
           | Some o => (Ok (member o), w)
           | None => (Thrown (HostError "dangling reference"), w)
           end
       end.

(** [options.member = v], as an update [f] of the object. *)
Definition writeOptions (l : ref) (f : IOptions.t → IOptions.t) : Async unit :=
  λ w, match optionObjects (store w) !! l with
       | Some o =>
           (Ok tt, {| store := set_options (insert l (f o)) (store w);
                      trace := trace w |})
       | None => (Thrown (HostError "dangling reference"), w)
       end.

Definition readTokenizer {A} (l : ref) (member : ITokenizer.t → A) : Async A :=
  λ w, match tokenizerObjects (store w) !! l with
       | Some k => (Ok (member k), w)
       | None => (Thrown (HostError "dangling reference"), w)
       end.

Definition writeTokenizer (l : ref) (f : ITokenizer.t → ITokenizer.t) : Async unit :=
  λ w, match tokenizerObjects (store w) !! l with
       | Some k =>
           (Ok tt, {| store := set_tokenizers (insert l (f k)) (store w);
                      trace := trace w |})
       | None => (Thrown (HostError "dangling reference"), w)
       end.

(** The default parameter [options: IOptions = {}]: a fresh object when the
    argument is [undefined]. *)
Definition defaultOptions (options : option ref) : Async ref :=
  λ w, match options with
       | Some l => (Ok l, w)
       | None =>
           let l := fresh (dom (optionObjects (store w))) in
           (Ok l, {| store := set_options (insert l IOptions.empty) (store w);
                     trace := trace w |})
       end.

(** The tokenizer object a strtok3 factory returns. *)
Definition newTokenizer (ev : Event) (k : ITokenizer.t) : Async ref :=
  λ w, let l := fresh (dom (tokenizerObjects (store w))) in
       (Ok l, {| store := set_tokenizers (insert l k) (store w);
                 trace := trace w ++ [ev] |}).

(** ** [core.ts] *)

Section Core.
Context `{Collaborators}.

Abbreviation Metadata := (IAudioMetadata.t IFormat INativeTags ICommonTagsResult).

(** [[
export function parseFromTokenizer(tokenizer: ITokenizer, mimeType?: string, options?: IOptions) {
  if (!tokenizer.fileSize && options.fileSize) {
    tokenizer.fileSize = options.fileSize;
  }
  return ParserFactory.parseOnContentType(tokenizer, mimeType, options);
}
]] *)
Definition parseFromTokenizer (tokenizer : ref) (mimeType : option string)
    (options : option ref) : Async Metadata :=
  tokenizerSize <- readTokenizer tokenizer ITokenizer.fileSize ;;
  condition <- (if negb (truthyNum tokenizerSize)
                then optionsSize <- readOptions options IOptions.fileSize ;;
                     ret (truthyNum optionsSize)
                else ret false) ;;
  (if condition : bool
   then optionsSize <- readOptions options IOptions.fileSize ;;
        writeTokenizer tokenizer (ITokenizer.set_fileSize optionsSize)
   else ret tt) ;;;
  callOnStore (CallParseOnContentType tokenizer mimeType options)
    (parseOnContentType tokenizer mimeType options).

(** [[
export function parseStream(stream: Stream.Readable, mimeType?: string, options: IOptions = {}) {
  return parseFromTokenizer(strtok3.fromStream(stream), mimeType, options);
}
]] *)
Definition parseStream (stream : Readable) (mimeType : option string)
    (options : option ref) : Async Metadata :=
  options <- defaultOptions options ;;
  tokenizer <- newTokenizer CallFromStream (fromStream stream) ;;
  parseFromTokenizer tokenizer mimeType (Some options).

(** [[
export async function scanAppendingHeaders(randomReader: IRandomReader, options: IOptions = {}) {
  let apeOffset = randomReader.fileSize;
  if (await hasID3v1Header(randomReader)) {
    apeOffset -= 128;
    const lyricsLen = await getLyricsHeaderLength(randomReader);
    apeOffset -= lyricsLen;
  }
  options.apeOffset = await APEv2Parser.findApeFooterOffset(randomReader, apeOffset);
}
]] *)
Definition scanAppendingHeaders (randomReader : IRandomReader.t)
    (options : option ref) : Async unit :=
  async (
    options <- defaultOptions options ;;
    let apeOffset := IRandomReader.fileSize randomReader in
    id3v1 <- await (call CallHasID3v1Header (hasID3v1Header randomReader)) ;;
    apeOffset <- (if id3v1 : bool
                  then let apeOffset := apeOffset - 128 in
                       lyricsLen <- await (call CallGetLyricsHeaderLength
                                             (getLyricsHeaderLength randomReader)) ;;
                       ret (apeOffset - lyricsLen)
                  else ret apeOffset) ;;
    found <- await (call (CallFindApeFooterOffset apeOffset)
                      (findApeFooterOffset randomReader apeOffset)) ;;
    writeOptions options (IOptions.set_apeOffset found)).

(** [[
export async function parseBuffer(buf: Buffer, mimeType?: string, options: IOptions = {}) {
  const bufferReader = new RandomBufferReader(buf);
  await scanAppendingHeaders(bufferReader, options);
  const tokenizer = strtok3.fromBuffer(buf);
  return parseFromTokenizer(tokenizer, mimeType, options);
}
]] *)
Definition parseBuffer (buf : list byte) (mimeType : option string)
    (options : option ref) : Async Metadata :=
  async (
    options <- defaultOptions options ;;
    let bufferReader := RandomBufferReader buf in
    await (scanAppendingHeaders bufferReader (Some options)) ;;;
    tokenizer <- newTokenizer CallFromBuffer (fromBuffer buf) ;;
    parseFromTokenizer tokenizer mimeType (Some options)).

End Core.

(** ** The procedures as the specification words them *)

Section Procedures.
Context `{Collaborators}.

(** A promise settles: what its [async] body throws is a rejection. *)
Definition settled {A} (r : Outcome A) : Outcome A :=
  match r with
  | Thrown e => Rejected e
  | _ => r
  end.

(** Section 4.2, steps (a) to (c): the position at which the APEv2 footer is
    looked for, given the size of the source, whether an ID3v1 trailer is
    present and the declared length of the Lyrics3 footer before it. *)
Definition apeCandidate (fileSize : Z) (id3v1 : bool) (lyricsLen : Z) : Z :=
  if id3v1 then fileSize - 128 - lyricsLen else fileSize.

(** Section 4.2: test for ID3v1; if it is present, probe for Lyrics3; probe
    for APEv2 at the adjusted position. The result is the offset where APEv2
    begins, if any, with the probes made, in order. A probe that fails ends
    the scan. *)
Definition trailerScan (reader : IRandomReader.t) : Outcome (option Z) * list Event :=
  let size := IRandomReader.fileSize reader in
  match hasID3v1Header reader with
  | Ok true =>
      match getLyricsHeaderLength reader with
      | Ok lyricsLen =>
          (settled (findApeFooterOffset reader (apeCandidate size true lyricsLen)),
           [CallHasID3v1Header; CallGetLyricsHeaderLength;
            CallFindApeFooterOffset (apeCandidate size true lyricsLen)])
      | Thrown e | Rejected e =>
          (Rejected e, [CallHasID3v1Header; CallGetLyricsHeaderLength])
      end
  | Ok false =>
      (settled (findApeFooterOffset reader (apeCandidate size false 0)),
       [CallHasID3v1Header; CallFindApeFooterOffset (apeCandidate size false 0)])
  | Thrown e | Rejected e => (Rejected e, [CallHasID3v1Header])
  end.

(** Section 6, option [fileSize]: override the tokenizer size when the
    stream lacks one. In the code, lacking one is [!tokenizer.fileSize] and
    the override needs a truthy [options.fileSize]. *)
Definition adoptFileSize (o : IOptions.t) (k : ITokenizer.t) : ITokenizer.t :=
  if negb (truthyNum (ITokenizer.fileSize k)) && truthyNum (IOptions.fileSize o)
  then ITokenizer.set_fileSize (IOptions.fileSize o) k
  else k.

(** An options object after the scan: [apeOffset] holds what the scan
    found, every other member is as before. *)
Definition onlyApeOffsetSet (found : option Z) (before after : IOptions.t) : Prop :=
  IOptions.apeOffset after = found
  ∧ IOptions.path after = IOptions.path before
  ∧ IOptions.fileSize after = IOptions.fileSize before
  ∧ IOptions.native after = IOptions.native before
  ∧ IOptions.duration after = IOptions.duration before
  ∧ IOptions.skipCovers after = IOptions.skipCovers before
  ∧ IOptions.skipPostHeaders after = IOptions.skipPostHeaders before
  ∧ IOptions.observer after = IOptions.observer before.

(** What the parser can see of the store: the tokenizer and the options it
    is handed. *)
Definition handed (s : Store) (tokenizer : ref) (options : option ref)
    : option ITokenizer.t * option (option IOptions.t) :=
  (tokenizerObjects s !! tokenizer, (λ l, optionObjects s !! l) <$> options).

(** Modelled from the spec: [lib/ParserFactory.ts] and the container parsers
    are not under src/. Section 5: all parser state is local to a parse
    invocation, and no shared mutable state exists between parses. So what a
    parse yields is settled by the tokenizer, the MIME type and the options
    it is handed. *)
Definition parserStateIsLocal : Prop :=
  ∀ tokenizer tokenizer' mimeType options options' s s',
    handed s tokenizer options = handed s' tokenizer' options' →
    (parseOnContentType tokenizer mimeType options s).1
    = (parseOnContentType tokenizer' mimeType options' s').1.

(** Modelled from the spec: [lib/ParserFactory.ts] and the container parsers
    are not under src/. Section 5, no shared mutable state: the parser reads
    the options it is handed and writes to no options object. *)
Definition parserKeepsOptions : Prop :=
  ∀ tokenizer mimeType options s,
    optionObjects (parseOnContentType tokenizer mimeType options s).2
    = optionObjects s.

End Procedures.

Section ProbeFailure.
Context `{Collaborators}.

(** One of the probes the scan makes on [reader] rejects with [e]: the
    ID3v1 probe; or, after an ID3v1 header was found, the Lyrics3 probe; or
    the APEv2 probe, at the position the earlier probes lead to. *)
Definition probeRejects (reader : IRandomReader.t) (e : Error) : Prop :=
  hasID3v1Header reader = Rejected e
  ∨ (hasID3v1Header reader = Ok true
     ∧ getLyricsHeaderLength reader = Rejected e)
  ∨ (hasID3v1Header reader = Ok false
     ∧ findApeFooterOffset reader (IRandomReader.fileSize reader) = Rejected e)
  ∨ (∃ lyricsLen,
       hasID3v1Header reader = Ok true
       ∧ getLyricsHeaderLength reader = Ok lyricsLen
       ∧ findApeFooterOffset reader
           (IRandomReader.fileSize reader - 128 - lyricsLen) = Rejected e).

End ProbeFailure.

(** ** The trailer probes over an in-memory buffer *)

Module Trailer.

Definition bytesEqual (a b : list byte) : bool :=
  bool_decide (Byte.to_N <$> a = Byte.to_N <$> b).

(** Modelled from the spec: [lib/common/RandomBufferReader.ts] is not under
    src/. Section 3, positioned reader: [size()] and
    [read_at(position, len, dst)] over a buffer of known size. A read delivers
    the bytes of the buffer from [position] on, at most [length] of them. *)
Definition readAt (buf : list byte) (position length : Z) : list byte :=
  if position <? 0 then []
  else take (Z.to_nat length) (drop (Z.to_nat position) buf).

Definition RandomBufferReader (buf : list byte) : IRandomReader.t :=
  {| IRandomReader.fileSize := Z.of_nat (length buf);
     IRandomReader.randomRead := λ position length, Ok (readAt buf position length) |}.

(** What a probe does with the bytes it asked for. *)
Definition onRead {A} (r : Outcome (list byte)) (k : list byte → A) : Outcome A :=
  match r with
  | Ok bytes => Ok (k bytes)
  | Thrown e => Thrown e
  | Rejected e => Rejected e
  end.

(** Modelled from the spec: [lib/id3v1/ID3v1Parser.ts] is not under src/.
    Section 4.2 (a): read the last 128 bytes and test for "TAG" at offset 0. *)
Definition hasID3v1Header (reader : IRandomReader.t) : Outcome bool :=
  onRead (IRandomReader.randomRead reader (IRandomReader.fileSize reader - 128) 128)
    (λ bytes, bytesEqual (take 3 bytes) (String.list_byte_of_string "TAG")).

(** The value of a field of ASCII decimal digits. *)
Fixpoint decimal (acc : Z) (digits : list byte) : option Z :=
  match digits with
  | [] => Some acc
  | d :: rest =>
      let n := Z.of_N (Byte.to_N d) in
      if (48 <=? n) && (n <=? 57) then decimal (10 * acc + (n - 48)) rest
      else None
  end.

(** Modelled from the spec: [lib/lyrics3/Lyrics3.ts] is not under src/.
    Section 4.2 (b): a Lyrics3 footer immediately before the ID3v1 trailer,
    and its declared length. The footer that declares a length is the one of
    Lyrics3 v2: six decimal digits and the marker "LYRICS200", the digits
    counting the bytes before them; where there is none the length is 0. *)
Definition getLyricsHeaderLength (reader : IRandomReader.t) : Outcome Z :=
  onRead (IRandomReader.randomRead reader (IRandomReader.fileSize reader - 143) 15)
    (λ bytes,
       if bytesEqual (drop 6 bytes) (String.list_byte_of_string "LYRICS200")
       then match decimal 0 (take 6 bytes) with
            | Some size => size + 15
            | None => 0
            end
       else 0).

(** An unsigned 32-bit little-endian integer. *)
Definition uint32le (bytes : list byte) : Z :=
  match Z.of_N ∘ Byte.to_N <$> bytes with
  | [b0; b1; b2; b3] =>
      Z.lor b0 (Z.lor (Z.shiftl b1 8) (Z.lor (Z.shiftl b2 16) (Z.shiftl b3 24)))
  | _ => 0
  end.

(** Modelled from the spec: [lib/apev2/APEv2Parser.ts] is not under src/.
    Section 4.2 (c) and its output: probe for an APEv2 footer (32 bytes that
    start with the sentinel "APETAGEX", the tag size at byte 12) ending at
    [offset]; the result is the byte offset where APEv2 begins, if any. *)
Definition findApeFooterOffset (reader : IRandomReader.t) (offset : Z)
    : Outcome (option Z) :=
  onRead (IRandomReader.randomRead reader (offset - 32) 32)
    (λ bytes,
       if bytesEqual (take 8 bytes) (String.list_byte_of_string "APETAGEX")
       then Some (offset - uint32le (take 4 (drop 12 bytes)))
       else None).

(** A stand-in for [ParserFactory.parseOnContentType], used to run the entry
    points on concrete inputs: it reports the tokenizer and the options it was
    handed and leaves the store as it is. *)
Definition reportingParser (tokenizer : ref) (mimeType : option string)
    (options : option ref) (s : Store)
    : Outcome (IAudioMetadata.t (option ITokenizer.t) (option IOptions.t) unit) * Store :=
  (Ok {| IAudioMetadata.format := tokenizerObjects s !! tokenizer;
         IAudioMetadata.native := options ≫= (optionObjects s !!.);
         IAudioMetadata.quality := {| IQualityInformation.warnings := [] |};
         IAudioMetadata.common := tt |}, s).

(** strtok3's factories: a tokenizer over a buffer knows its size, one over
    a stream does not. *)
Definition fromBuffer (buf : list byte) : ITokenizer.t :=
  {| ITokenizer.fileSize := Some (Z.of_nat (length buf));
     ITokenizer.position := 0;
     ITokenizer.source := buf |}.

Definition fromStream (stream : list byte) : ITokenizer.t :=
  {| ITokenizer.fileSize := None;
     ITokenizer.position := 0;
     ITokenizer.source := stream |}.

End Trailer.

(** The collaborators over in-memory buffers. *)
#[export] Instance bufferHost : Collaborators := {|
  Readable := list byte;
  IFormat := option ITokenizer.t;
  INativeTags := option IOptions.t;
  ICommonTagsResult := unit;
  fromStream := Trailer.fromStream;
  fromBuffer := Trailer.fromBuffer;
  parseOnContentType := Trailer.reportingParser;
  RandomBufferReader := Trailer.RandomBufferReader;
  hasID3v1Header := Trailer.hasID3v1Header;
  getLyricsHeaderLength := Trailer.getLyricsHeaderLength;
  findApeFooterOffset := Trailer.findApeFooterOffset
|}.

(** ** Sample inputs *)

Module Sample.

(** An APEv2 footer of a tag that consists of the footer alone: sentinel,
    version 2000, size 32, no item, flags, reserved. *)
Definition apeFooter : list byte :=
  String.list_byte_of_string "APETAGEX"
  ++ [xd0; x07; x00; x00] ++ [x20; x00; x00; x00]
  ++ replicate 16 x00.

(** A Lyrics3 v2 block without fields: 11 bytes before the size field. *)
Definition lyrics3 : list byte :=
  String.list_byte_of_string "LYRICSBEGIN000011LYRICS200".

(** An ID3v1 trailer: "TAG" and 125 bytes of fields. *)
Definition id3v1 : list byte :=
  String.list_byte_of_string "TAG" ++ replicate 125 x00.

Definition audio : list byte := [xff; xfb; x90; x00].

(** Audio, then APEv2, Lyrics3 and ID3v1 trailers: 4 + 32 + 26 + 128 bytes. *)
Definition taggedFile : list byte := audio ++ apeFooter ++ lyrics3 ++ id3v1.

(** Audio and an APEv2 footer only. *)
Definition apeFile : list byte := audio ++ apeFooter.

(** Options as a caller would pass them: [{ apeOffset: 7 }]. *)
Definition callerOptions : IOptions.t :=
  IOptions.set_apeOffset (Some 7) IOptions.empty.

(** [{ fileSize: 100 }] *)
Definition sizeOptions : IOptions.t :=
  {| IOptions.path := None; IOptions.fileSize := Some 100;
     IOptions.native := None; IOptions.duration := None;
     IOptions.skipCovers := None; IOptions.skipPostHeaders := None;
     IOptions.observer := None; IOptions.apeOffset := None |}.

(** [{ fileSize: 0 }] *)
Definition zeroSizeOptions : IOptions.t :=
  {| IOptions.path := None; IOptions.fileSize := Some 0;
     IOptions.native := None; IOptions.duration := None;
     IOptions.skipCovers := None; IOptions.skipPostHeaders := None;
     IOptions.observer := None; IOptions.apeOffset := None |}.

(** A store that holds one options object, at reference 1. *)
Definition storeWith (o : IOptions.t) : Store :=
  {| optionObjects := {[ 1%positive := o ]}; tokenizerObjects := ∅ |}.

(** A store that holds one options object and one tokenizer, both at
    reference 1. *)
Definition storeWithTokenizer (o : IOptions.t) (k : ITokenizer.t) : Store :=
  {| optionObjects := {[ 1%positive := o ]};
     tokenizerObjects := {[ 1%positive := k ]} |}.

Definition start (s : Store) : World := {| store := s; trace := [] |}.

(** A reader over a file that cannot be read: every read rejects. *)
Definition brokenReader : IRandomReader.t :=
  {| IRandomReader.fileSize := 200;
     IRandomReader.randomRead := λ _ _, Rejected (HostError "EIO") |}.

(** The collaborators of [bufferHost], over a reader whose reads reject. *)
Definition brokenHost : Collaborators :=
  {| Readable := list byte;
     IFormat := option ITokenizer.t;
     INativeTags := option IOptions.t;
     ICommonTagsResult := unit;
     fromStream := Trailer.fromStream;
     fromBuffer := Trailer.fromBuffer;
     parseOnContentType := Trailer.reportingParser;
     RandomBufferReader := λ _, brokenReader;
     hasID3v1Header := Trailer.hasID3v1Header;
     getLyricsHeaderLength := Trailer.getLyricsHeaderLength;
     findApeFooterOffset := Trailer.findApeFooterOffset |}.

End Sample.

(* ===================================================================== *)
(** * Part II: theorems *)
(* ===================================================================== *)

(** ** [ratingToStars] *)

Section RatingFacts.

(** [Math.round x] is the integer nearest to [x]; at a tie it is the upper
    one. *)
Lemma Math_round_nearest (x : Q) :
  (x - (1 # 2) < inject_Z (Math_round x) <= x + (1 # 2))%Q.
Proof.
  unfold Math_round.
  pose proof (Qfloor_le (x + (1 # 2))) as Hlo.
  pose proof (Qlt_floor (x + (1 # 2))) as Hhi.
  rewrite inject_Z_plus in Hhi.
  change (inject_Z 1) with 1%Q in Hhi.
  split; lra.
Qed.

Lemma Math_round_mono (x y : Q) : (x <= y)%Q → Math_round x ≤ Math_round y.
Proof. intros Hxy. unfold Math_round. apply Qfloor_resp_le. lra. Qed.

Example ratingToStars_samples :
  ratingToStars (Some 0%Q) = 1 ∧
  ratingToStars (Some (1 # 4)%Q) = 2 ∧
  ratingToStars (Some (1 # 2)%Q) = 3 ∧
  ratingToStars (Some (3 # 4)%Q) = 4 ∧
  ratingToStars (Some 1%Q) = 5.
Proof. repeat split. Qed.

(** At a tie the upper star count is taken: 0.125 * 4 = 0.5 rounds to 1. *)
Example ratingToStars_tie :
  ratingToStars (Some (1 # 8)%Q) = 2 ∧ ratingToStars (Some (12 # 100)%Q) = 1.
Proof. split; reflexivity. Qed.

(** C4. [ratingToStars] returns 0 for [undefined]; for a number [r] it
    returns [1 + Math.round(r * 4)], one more than the integer nearest to
    [4 r] (ties upwards); and for [r] in [0,1] the result is an integer
    between 1 and 5. *)
Theorem ratingToStars_spec (r : Q) :
  ratingToStars None = 0 ∧
  ratingToStars (Some r) = 1 + Math_round (r * 4)%Q ∧
  (r * 4 - (1 # 2) < inject_Z (ratingToStars (Some r) - 1) <= r * 4 + (1 # 2))%Q ∧
  ((0 <= r <= 1)%Q → 1 ≤ ratingToStars (Some r) ≤ 5).
Proof.
  split; [reflexivity|]. split; [reflexivity|]. split.
  - simpl. replace (1 + Math_round (r * 4) - 1) with (Math_round (r * 4)) by lia.
    apply Math_round_nearest.
  - intros [Hlo Hhi]. simpl.
    assert (Math_round 0 ≤ Math_round (r * 4)) as H0
      by (apply Math_round_mono; lra).
    assert (Math_round (r * 4) ≤ Math_round 4) as H4
      by (apply Math_round_mono; lra).
    change (Math_round 0) with 0 in H0.
    change (Math_round 4) with 4 in H4.
    lia.
Qed.

Lemma ratingToStars_spec_witness :
  (0 <= 3 # 4 <= 1)%Q ∧ 1 ≤ ratingToStars (Some (3 # 4)%Q) ≤ 5.
Proof.
  assert ((0 <= 3 # 4 <= 1)%Q) as Hr by (split; discriminate).
  split; [exact Hr|].
  exact (proj2 (proj2 (proj2 (ratingToStars_spec (3 # 4)))) Hr).
Defined.

End RatingFacts.

(** ** [orderTags] *)

Section OrderTagsFacts.
Context {V : Type}.
Implicit Types (tags : gmap string (list V)) (nativeTags : list (ITag.t V)).

Lemma valuesOf_cons_eq (tag : ITag.t V) nativeTags :
  valuesOf (ITag.id tag) (tag :: nativeTags)
  = ITag.value tag :: valuesOf (ITag.id tag) nativeTags.
Proof. unfold valuesOf. rewrite filter_cons_True by done. done. Qed.

Lemma valuesOf_cons_ne key (tag : ITag.t V) nativeTags :
  ITag.id tag ≠ key → valuesOf key (tag :: nativeTags) = valuesOf key nativeTags.
Proof. intros Hne. unfold valuesOf. rewrite filter_cons_False by done. done. Qed.

(** One iteration on an id that [Object.prototype] does not define. *)
Lemma orderTags_step_safe tags (tag : ITag.t V) :
  ITag.id tag ∉ objectPrototypeKeys →
  assignAndPush tags (ITag.id tag)
    (orEmptyArray (getProperty tags (ITag.id tag))) (ITag.value tag)
  = Ok (<[ITag.id tag := default [] (tags !! ITag.id tag) ++ [ITag.value tag]]> tags).
Proof.
  intros Hsafe. unfold getProperty.
  destruct (tags !! ITag.id tag) as [vs|]; [done|].
  rewrite bool_decide_eq_false_2 by done. done.
Qed.

(** One iteration on an inherited name that is not an own property. *)
Lemma orderTags_step_inherited tags (tag : ITag.t V) :
  ITag.id tag ∈ objectPrototypeKeys →
  tags !! ITag.id tag = None →
  assignAndPush tags (ITag.id tag)
    (orEmptyArray (getProperty tags (ITag.id tag))) (ITag.value tag)
  = Thrown (TypeError "push is not a function").
Proof.
  intros Hin Hown. unfold getProperty. rewrite Hown.
  rewrite bool_decide_eq_true_2 by done. done.
Qed.

Lemma orderTags_loop_safe nativeTags : ∀ tags,
  Forall (λ tag, ITag.id tag ∉ objectPrototypeKeys) nativeTags →
  ∃ dict, orderTags_loop tags nativeTags = Ok dict
          ∧ ∀ key, dict !! key = collected (tags !! key) (valuesOf key nativeTags).
Proof.
  induction nativeTags as [|tag rest IH]; intros tags Hsafe.
  - exists tags. split; [done|]. intros key. simpl.
    destruct (tags !! key) as [vs|]; simpl; [by rewrite app_nil_r | done].
  - inversion Hsafe as [|? ? Htag Hrest]; subst.
    simpl. rewrite orderTags_step_safe by done.
    edestruct IH as (dict & Hrun & Hdict); [exact Hrest|].
    rewrite Hrun.
    exists dict. split; [done|]. intros key. rewrite Hdict.
    destruct (decide (ITag.id tag = key)) as [<-|Hne].
    + rewrite lookup_insert_eq, valuesOf_cons_eq.
      destruct (tags !! ITag.id tag) as [vs|]; simpl; [|done].
      by rewrite <- app_assoc.
    + by rewrite lookup_insert_ne, valuesOf_cons_ne.
Qed.

Lemma orderTags_loop_inherited nativeTags : ∀ tags,
  (∀ key, key ∈ objectPrototypeKeys → tags !! key = None) →
  Exists (λ tag, ITag.id tag ∈ objectPrototypeKeys) nativeTags →
  orderTags_loop tags nativeTags = Thrown (TypeError "push is not a function").
Proof.
  induction nativeTags as [|tag rest IH]; intros tags Hown Hex.
  - inversion Hex.
  - simpl. destruct (decide (ITag.id tag ∈ objectPrototypeKeys)) as [Hin|Hout].
    + by rewrite orderTags_step_inherited by auto.
    + rewrite orderTags_step_safe by done. apply IH.
      * intros key Hkey. rewrite lookup_insert_ne; [auto|]. congruence.
      * by inversion Hex; subst.
Qed.

(** X16. On ids that [Object.prototype] does not define, [orderTags]
    returns the mapping from id to the values of exactly the tags that bear
    it, in arrival order. *)
Theorem orderTags_groups_by_id nativeTags :
  Forall (λ tag, ITag.id tag ∉ objectPrototypeKeys) nativeTags →
  ∃ dict, orderTags nativeTags = Ok dict
          ∧ ∀ key, dict !! key = collected None (valuesOf key nativeTags).
Proof.
  intros Hsafe. destruct (orderTags_loop_safe nativeTags ∅ Hsafe) as (dict & Hrun & Hdict).
  exists dict. split; [done|]. intros key. by rewrite Hdict, lookup_empty.
Qed.

(** C9. [orderTags] is not total: on every list that holds a tag whose id is
    a property name inherited from [Object.prototype] (such as "toString"),
    the inherited value is taken for the accumulated array and the [push]
    throws a [TypeError]; no dictionary is returned. *)
Theorem orderTags_not_total nativeTags :
  Exists (λ tag, ITag.id tag ∈ objectPrototypeKeys) nativeTags →
  orderTags nativeTags = Thrown (TypeError "push is not a function").
Proof.
  intros Hex. apply orderTags_loop_inherited; [|done].
  intros key _. apply lookup_empty.
Qed.

End OrderTagsFacts.

Lemma orderTags_not_total_witness :
  orderTags [ {| ITag.id := "toString"; ITag.value := 1%Z |} ]
  = Thrown (TypeError "push is not a function").
Proof.
  apply (orderTags_not_total [ {| ITag.id := "toString"; ITag.value := 1%Z |} ]).
  apply Exists_cons_hd. simpl. apply (bool_decide_unpack _). by vm_compute.
Defined.

(** C3. With a tag whose id is "toString" in the list, [orderTags] throws
    where the mapping { TITLE: [1], toString: [2] } was due. *)
Theorem orderTags_inherited_id_throws :
  orderTags [ {| ITag.id := "TITLE"; ITag.value := 1%Z |};
              {| ITag.id := "toString"; ITag.value := 2%Z |} ]
  = Thrown (TypeError "push is not a function").
Proof. by vm_compute. Qed.

Example orderTags_sample :
  orderTags [ {| ITag.id := "ARTIST"; ITag.value := 1%Z |};
              {| ITag.id := "TITLE"; ITag.value := 2%Z |};
              {| ITag.id := "ARTIST"; ITag.value := 3%Z |} ]
  = Ok (<["ARTIST" := [1; 3]]> (<["TITLE" := [2]]> ∅)).
Proof. by vm_compute. Qed.

(** ** The store and the monad *)

Lemma set_tokenizers_id (s : Store) (l : ref) (k : ITokenizer.t) :
  tokenizerObjects s !! l = Some k → set_tokenizers (insert l k) s = s.
Proof.
  intros Hk. destruct s as [os ks]. unfold set_tokenizers. simpl in *.
  by rewrite insert_id.
Qed.

Ltac unfold_async :=
  unfold async, await, bind, ret, throw, call, callOnStore, readOptions,
    writeOptions, readTokenizer, writeTokenizer, defaultOptions, newTokenizer.

(** ** [parseFromTokenizer] *)

Section CoreFacts.
Context `{Collaborators}.

Abbreviation Metadata := (IAudioMetadata.t IFormat INativeTags ICommonTagsResult).

(** With options at hand the entry point adopts the size and hands over. *)
Lemma parseFromTokenizer_run tokenizer k l o mimeType w :
  tokenizerObjects (store w) !! tokenizer = Some k →
  optionObjects (store w) !! l = Some o →
  parseFromTokenizer tokenizer mimeType (Some l) w
  = callOnStore (CallParseOnContentType tokenizer mimeType (Some l))
      (parseOnContentType tokenizer mimeType (Some l))
      {| store := set_tokenizers (insert tokenizer (adoptFileSize o k)) (store w);
         trace := trace w |}.
Proof.
  intros Hk Ho. unfold parseFromTokenizer, adoptFileSize. unfold_async.
  rewrite Hk. simpl.
  destruct (truthyNum (ITokenizer.fileSize k)) eqn:Hsize; simpl.
  - rewrite set_tokenizers_id by done. done.
  - rewrite Ho. simpl.
    destruct (truthyNum (IOptions.fileSize o)) eqn:Hopt; simpl.
    + rewrite Ho, Hk. done.
    + rewrite set_tokenizers_id by done. done.
Qed.

(** X7. Without options the size test decides: a tokenizer that has a
    non-zero size is handed over as it is, and the options are not read, so
    the call does not fail on the missing argument. *)
Lemma parseFromTokenizer_sized_without_options tokenizer k mimeType w :
  tokenizerObjects (store w) !! tokenizer = Some k →
  truthyNum (ITokenizer.fileSize k) = true →
  parseFromTokenizer tokenizer mimeType None w
  = callOnStore (CallParseOnContentType tokenizer mimeType None)
      (parseOnContentType tokenizer mimeType None) w.
Proof.
  intros Hk Hsize. unfold parseFromTokenizer. unfold_async.
  rewrite Hk. simpl. rewrite Hsize. simpl. by destruct w.
Qed.

(** C8, as amended. Called without the options argument,
    [parseFromTokenizer] throws a [TypeError] exactly when the tokenizer has
    no (truthy) [fileSize], as a tokenizer over a stream has none:
    [options.fileSize] is read only behind [!tokenizer.fileSize &&], and is
    then read off [undefined]. Nothing has happened by then: the store and
    the trace are as before and the parser was not called. Such a call
    exists, so the entry point is not total over its signature. With a
    tokenizer of non-zero [fileSize] the options are not read and the parser
    is called on the unchanged world. *)
Theorem parseFromTokenizer_without_options_throws mimeType :
  (∀ tokenizer k w,
     tokenizerObjects (store w) !! tokenizer = Some k →
     truthyNum (ITokenizer.fileSize k) = false →
     parseFromTokenizer tokenizer mimeType None w
     = (Thrown (TypeError "Cannot read property of undefined"), w))
  ∧ (∃ tokenizer w,
       parseFromTokenizer tokenizer mimeType None w
       = (Thrown (TypeError "Cannot read property of undefined"), w))
  ∧ (∀ tokenizer k w,
       tokenizerObjects (store w) !! tokenizer = Some k →
       truthyNum (ITokenizer.fileSize k) = true →
       parseFromTokenizer tokenizer mimeType None w
       = callOnStore (CallParseOnContentType tokenizer mimeType None)
           (parseOnContentType tokenizer mimeType None) w).
Proof.
  assert (∀ tokenizer k w,
            tokenizerObjects (store w) !! tokenizer = Some k →
            truthyNum (ITokenizer.fileSize k) = false →
            parseFromTokenizer tokenizer mimeType None w
            = (Thrown (TypeError "Cannot read property of undefined"), w)) as Hthrows.
  { intros tokenizer k w Hk Hsize. unfold parseFromTokenizer. unfold_async.
    rewrite Hk. simpl. rewrite Hsize. simpl. done. }
  split; [exact Hthrows|]. split.
  - exists 1%positive,
      {| store := {| optionObjects := ∅;
                     tokenizerObjects :=
                       {[ 1%positive := {| ITokenizer.fileSize := None;
                                           ITokenizer.position := 0;
                                           ITokenizer.source := [] |} ]} |};
         trace := [] |}.
    by eapply Hthrows; [apply lookup_singleton_eq|].
  - intros tokenizer k w Hk Hsize. unfold parseFromTokenizer. unfold_async.
    rewrite Hk. simpl. rewrite Hsize. simpl. by destruct w.
Qed.

(** C6, as amended. With options given, the tokenizer handed to the parser
    differs from the caller's in [fileSize] at most: a tokenizer with a
    non-zero [fileSize] is handed over unchanged; one whose [fileSize] is
    [undefined] or 0 gets [options.fileSize] when that is a non-zero number,
    and is unchanged otherwise. *)
Theorem parseFromTokenizer_fileSize_override tokenizer k l o mimeType w :
  tokenizerObjects (store w) !! tokenizer = Some k →
  optionObjects (store w) !! l = Some o →
  ∃ k',
    parseFromTokenizer tokenizer mimeType (Some l) w
    = callOnStore (CallParseOnContentType tokenizer mimeType (Some l))
        (parseOnContentType tokenizer mimeType (Some l))
        {| store := set_tokenizers (insert tokenizer k') (store w);
           trace := trace w |}
    ∧ ITokenizer.position k' = ITokenizer.position k
    ∧ ITokenizer.source k' = ITokenizer.source k
    ∧ (truthyNum (ITokenizer.fileSize k) = true → k' = k)
    ∧ (truthyNum (ITokenizer.fileSize k) = false →
       truthyNum (IOptions.fileSize o) = true →
       ITokenizer.fileSize k' = IOptions.fileSize o)
    ∧ (truthyNum (ITokenizer.fileSize k) = false →
       truthyNum (IOptions.fileSize o) = false → k' = k).
Proof.
  intros Hk Ho. exists (adoptFileSize o k).
  split; [by apply parseFromTokenizer_run|].
  unfold adoptFileSize.
  destruct (truthyNum (ITokenizer.fileSize k)), (truthyNum (IOptions.fileSize o));
    simpl; repeat split; intros; congruence.
Qed.

(** ** [scanAppendingHeaders] *)

(** The scan is the procedure of section 4.2, its result stored in
    [options.apeOffset]; a failed probe rejects and stores nothing. *)
Lemma scanAppendingHeaders_refines reader l o w :
  optionObjects (store w) !! l = Some o →
  scanAppendingHeaders reader (Some l) w
  = match (trailerScan reader).1 with
    | Ok found =>
        (Ok tt, {| store := set_options (insert l (IOptions.set_apeOffset found o)) (store w);
                   trace := trace w ++ (trailerScan reader).2 |})
    | Thrown e | Rejected e =>
        (Rejected e, {| store := store w; trace := trace w ++ (trailerScan reader).2 |})
    end.
Proof.
  intros Ho. unfold scanAppendingHeaders, trailerScan, apeCandidate. unfold_async.
  simpl.
  destruct (hasID3v1Header reader) as [[|]|e|e]; simpl; try done.
  - destruct (getLyricsHeaderLength reader) as [n|e|e]; simpl;
      rewrite <- ?app_assoc; simpl; try done.
    destruct (findApeFooterOffset reader _) as [found|e|e]; simpl;
      rewrite ?Ho; simpl; rewrite <- ?app_assoc; simpl; done.
  - destruct (findApeFooterOffset reader _) as [found|e|e]; simpl;
      rewrite ?Ho; simpl; rewrite <- ?app_assoc; simpl; done.
Qed.

(** C2. For a reader of known size and options in the store, when the
    probes resolve: the scan starts from [fileSize]; it subtracts 128 exactly
    when the ID3v1 probe finds a header; it probes for a Lyrics3 footer, and
    subtracts its declared length, only in that case; it then probes for the
    APEv2 footer at the adjusted position and records what that probe yields
    in [options.apeOffset]: afterwards the [apeOffset] member of the options
    object is that value, and its other members are as before. The trace
    holds the probes in that order. *)
Theorem scanAppendingHeaders_procedure reader l o w id3v1 lyricsLen found :
  optionObjects (store w) !! l = Some o →
  hasID3v1Header reader = Ok id3v1 →
  (id3v1 = true → getLyricsHeaderLength reader = Ok lyricsLen) →
  findApeFooterOffset reader
    (apeCandidate (IRandomReader.fileSize reader) id3v1 lyricsLen) = Ok found →
  scanAppendingHeaders reader (Some l) w
  = (Ok tt,
     {| store := set_options (insert l (IOptions.set_apeOffset found o)) (store w);
        trace := trace w
                 ++ CallHasID3v1Header
                    :: (if id3v1 then [CallGetLyricsHeaderLength] else [])
                    ++ [CallFindApeFooterOffset
                          (apeCandidate (IRandomReader.fileSize reader) id3v1 lyricsLen)] |})
  ∧ apeCandidate (IRandomReader.fileSize reader) id3v1 lyricsLen
    = IRandomReader.fileSize reader - (if id3v1 then 128 + lyricsLen else 0)
  ∧ ∃ o',
      optionObjects (store (scanAppendingHeaders reader (Some l) w).2) !! l = Some o'
      ∧ IOptions.apeOffset o' = found
      ∧ onlyApeOffsetSet found o o'.
Proof.
  intros Ho Hid3 Hlyrics Hape.
  assert (scanAppendingHeaders reader (Some l) w
          = (Ok tt,
             {| store := set_options (insert l (IOptions.set_apeOffset found o)) (store w);
                trace := trace w
                         ++ CallHasID3v1Header
                            :: (if id3v1 then [CallGetLyricsHeaderLength] else [])
                            ++ [CallFindApeFooterOffset
                                  (apeCandidate (IRandomReader.fileSize reader)
                                     id3v1 lyricsLen)] |})) as Hrun.
  { rewrite (scanAppendingHeaders_refines _ _ _ _ Ho).
    unfold trailerScan, apeCandidate in *. rewrite Hid3.
    destruct id3v1; [rewrite (Hlyrics eq_refl)|]; rewrite Hape; done. }
  split; [exact Hrun|]. split.
  - unfold apeCandidate. destruct id3v1; lia.
  - exists (IOptions.set_apeOffset found o). rewrite Hrun. simpl.
    split; [apply lookup_insert_eq|]. split; [reflexivity|].
    repeat split.
Qed.

(** ** [parseBuffer] and [parseStream] *)

Lemma async_callOnStore {A} ev (f : Store → Outcome A * Store) w :
  async (callOnStore ev f) w
  = (settled (f (store w)).1,
     {| store := (f (store w)).2; trace := trace w ++ [ev] |}).
Proof.
  unfold async, callOnStore, settled.
  destruct (f (store w)) as [[a|e|e] s]; done.
Qed.

Lemma callOnStore_run {A} ev (f : Store → Outcome A * Store) w :
  callOnStore ev f w
  = ((f (store w)).1, {| store := (f (store w)).2; trace := trace w ++ [ev] |}).
Proof. unfold callOnStore. by destruct (f (store w)). Qed.

(** The default parameter: a call without options is a call with a fresh
    empty object. *)
Lemma parseBuffer_default buf mimeType w :
  parseBuffer buf mimeType None w
  = parseBuffer buf mimeType (Some (fresh (dom (optionObjects (store w)))))
      {| store := set_options (insert (fresh (dom (optionObjects (store w))))
                                 IOptions.empty) (store w);
         trace := trace w |}.
Proof. reflexivity. Qed.

Lemma parseStream_default stream mimeType w :
  parseStream stream mimeType None w
  = parseStream stream mimeType (Some (fresh (dom (optionObjects (store w)))))
      {| store := set_options (insert (fresh (dom (optionObjects (store w))))
                                 IOptions.empty) (store w);
         trace := trace w |}.
Proof. reflexivity. Qed.

(** [parseBuffer] with options in the store: the scan, then a tokenizer over
    the buffer, then the parser, on a store in which the scan's result is
    recorded. *)
Lemma parseBuffer_run buf mimeType l o w :
  optionObjects (store w) !! l = Some o →
  parseBuffer buf mimeType (Some l) w
  = match (trailerScan (RandomBufferReader buf)).1 with
    | Ok found =>
        async (callOnStore
                 (CallParseOnContentType (fresh (dom (tokenizerObjects (store w))))
                    mimeType (Some l))
                 (parseOnContentType (fresh (dom (tokenizerObjects (store w))))
                    mimeType (Some l)))
          {| store :=
               {| optionObjects :=
                    <[l := IOptions.set_apeOffset found o]> (optionObjects (store w));
                  tokenizerObjects :=
                    <[fresh (dom (tokenizerObjects (store w)))
                      := adoptFileSize (IOptions.set_apeOffset found o) (fromBuffer buf)]>
                      (tokenizerObjects (store w)) |};
             trace := trace w ++ (trailerScan (RandomBufferReader buf)).2
                      ++ [CallFromBuffer] |}
    | Thrown e | Rejected e =>
        (Rejected e,
         {| store := store w;
            trace := trace w ++ (trailerScan (RandomBufferReader buf)).2 |})
    end.
Proof.
  intros Ho. unfold parseBuffer.
  unfold async at 1. unfold bind at 1. unfold defaultOptions.
  unfold bind at 1. unfold await at 1.
  rewrite (scanAppendingHeaders_refines _ _ _ _ Ho).
  destruct (trailerScan (RandomBufferReader buf)) as [[found|e|e] probes];
    simpl; try done.
  unfold bind, newTokenizer. simpl.
  erewrite parseFromTokenizer_run; simpl;
    [|apply lookup_insert_eq|apply lookup_insert_eq].
  rewrite async_callOnStore, callOnStore_run. simpl.
  unfold set_tokenizers, set_options, settled. simpl.
  rewrite insert_insert_eq.
  destruct (parseOnContentType _ _ _ _) as [[m|e|e] s']; simpl;
    by rewrite <- !app_assoc.
Qed.

Lemma parseStream_run stream mimeType l o w :
  optionObjects (store w) !! l = Some o →
  parseStream stream mimeType (Some l) w
  = callOnStore
      (CallParseOnContentType (fresh (dom (tokenizerObjects (store w))))
         mimeType (Some l))
      (parseOnContentType (fresh (dom (tokenizerObjects (store w))))
         mimeType (Some l))
      {| store :=
           {| optionObjects := optionObjects (store w);
              tokenizerObjects :=
                <[fresh (dom (tokenizerObjects (store w)))
                  := adoptFileSize o (fromStream stream)]>
                  (tokenizerObjects (store w)) |};
         trace := trace w ++ [CallFromStream] |}.
Proof.
  intros Ho. unfold parseStream.
  unfold bind at 1. unfold defaultOptions.
  unfold bind, newTokenizer. simpl.
  erewrite parseFromTokenizer_run; simpl; [|apply lookup_insert_eq|exact Ho].
  unfold set_tokenizers. simpl. by rewrite insert_insert_eq.
Qed.

Lemma trailerScan_starts reader :
  head (trailerScan reader).2 = Some CallHasID3v1Header.
Proof.
  unfold trailerScan.
  destruct (hasID3v1Header reader) as [[|]|e|e]; try done.
  by destruct (getLyricsHeaderLength reader).
Qed.

Lemma trailerScan_events reader :
  filter scanEvent (trailerScan reader).2 = (trailerScan reader).2.
Proof.
  unfold trailerScan.
  destruct (hasID3v1Header reader) as [[|]|e|e]; try done.
  by destruct (getLyricsHeaderLength reader).
Qed.

(** [parseStream] adds no probe to the trace, whatever it is given. *)
Lemma parseStream_no_scan_given stream mimeType l w :
  filter scanEvent (trace (parseStream stream mimeType (Some l) w).2)
  = filter scanEvent (trace w).
Proof.
  destruct (optionObjects (store w) !! l) as [o|] eqn:Ho.
  - rewrite (parseStream_run _ _ _ _ _ Ho), callOnStore_run. simpl.
    rewrite !filter_app. simpl. by rewrite !app_nil_r.
  - unfold parseStream, parseFromTokenizer. unfold_async. simpl.
    rewrite lookup_insert_eq. simpl.
    destruct (truthyNum (ITokenizer.fileSize (fromStream stream))); simpl.
    + destruct (parseOnContentType _ _ _ _) as [[m|e|e] s']; simpl;
        rewrite !filter_app; simpl; by rewrite !app_nil_r.
    + rewrite Ho. simpl. rewrite filter_app. simpl. by rewrite app_nil_r.
Qed.

Lemma parseStream_no_scan stream mimeType options w :
  filter scanEvent (trace (parseStream stream mimeType options w).2)
  = filter scanEvent (trace w).
Proof.
  destruct options as [l|].
  - apply parseStream_no_scan_given.
  - rewrite parseStream_default. by rewrite parseStream_no_scan_given.
Qed.

(** C5. [parseStream] performs no trailer scan and parsing proceeds: it
    makes the tokenizer and calls the parser, with the options it was given
    or with a new empty object, and it adds no probe to the trace, whatever
    the stream and the options. [parseBuffer] performs the scan first: the
    probes of the scan are the first calls it makes, no probe follows them,
    and when the scan resolves the parser is called, after the tokenizer was
    made, on a store in which the [apeOffset] member of the options object is
    the scan's result. *)
Theorem trailer_scan_buffer_only buf stream mimeType options l o w :
  optionObjects (store w) !! l = Some o →
  filter scanEvent (trace (parseStream stream mimeType options w).2)
  = filter scanEvent (trace w)
  ∧ (∃ w1 tokenizer,
       parseStream stream mimeType (Some l) w
       = callOnStore (CallParseOnContentType tokenizer mimeType (Some l))
           (parseOnContentType tokenizer mimeType (Some l)) w1
       ∧ trace w1 = trace w ++ [CallFromStream]
       ∧ optionObjects (store w1) = optionObjects (store w))
  ∧ (∃ w1 tokenizer l',
       parseStream stream mimeType None w
       = callOnStore (CallParseOnContentType tokenizer mimeType (Some l'))
           (parseOnContentType tokenizer mimeType (Some l')) w1
       ∧ trace w1 = trace w ++ [CallFromStream]
       ∧ optionObjects (store w1) !! l' = Some IOptions.empty)
  ∧ head (trailerScan (RandomBufferReader buf)).2 = Some CallHasID3v1Header
  ∧ (∃ rest,
       trace (parseBuffer buf mimeType (Some l) w).2
       = trace w ++ (trailerScan (RandomBufferReader buf)).2 ++ rest
       ∧ filter scanEvent rest = [])
  ∧ (∀ found,
       (trailerScan (RandomBufferReader buf)).1 = Ok found →
       ∃ w1 tokenizer o',
         parseBuffer buf mimeType (Some l) w
         = async (callOnStore (CallParseOnContentType tokenizer mimeType (Some l))
                    (parseOnContentType tokenizer mimeType (Some l))) w1
         ∧ trace w1 = trace w ++ (trailerScan (RandomBufferReader buf)).2
                      ++ [CallFromBuffer]
         ∧ optionObjects (store w1) !! l = Some o'
         ∧ IOptions.apeOffset o' = found
         ∧ onlyApeOffsetSet found o o').
Proof.
  intros Ho. split; [apply parseStream_no_scan|]. split.
  { eexists _, _. split; [apply (parseStream_run _ _ _ _ _ Ho)|]. done. }
  split.
  { rewrite parseStream_default.
    erewrite parseStream_run by (simpl; apply lookup_insert_eq).
    eexists _, _, _. split; [reflexivity|]. simpl.
    split; [done|]. apply lookup_insert_eq. }
  split; [apply trailerScan_starts|]. split.
  - rewrite (parseBuffer_run _ _ _ _ _ Ho).
    destruct (trailerScan (RandomBufferReader buf)).1 as [found|e|e].
    + rewrite async_callOnStore. simpl. eexists.
      rewrite <- !app_assoc. split; [reflexivity|]. done.
    + exists []. by rewrite app_nil_r.
    + exists []. by rewrite app_nil_r.
  - intros found Hfound. rewrite (parseBuffer_run _ _ _ _ _ Ho), Hfound.
    eexists _, _, (IOptions.set_apeOffset found o). split; [reflexivity|]. simpl.
    split; [done|]. split; [apply lookup_insert_eq|].
    split; [reflexivity|]. repeat split.
Qed.

(** ** The caller's options object *)

Lemma set_apeOffset_twice a b o :
  IOptions.set_apeOffset a (IOptions.set_apeOffset b o) = IOptions.set_apeOffset a o.
Proof. reflexivity. Qed.

Lemma onlyApeOffsetSet_set found o :
  onlyApeOffsetSet found o (IOptions.set_apeOffset found o).
Proof. repeat split. Qed.

(** C1, as amended. A caller-supplied [apeOffset] is not used: when the scan
    resolves it stores its own result over the caller's value, and the whole
    call of [parseBuffer] comes out the same whatever value the caller
    supplied. *)
Theorem parseBuffer_overwrites_apeOffset buf mimeType l o s events found v v' :
  (trailerScan (RandomBufferReader buf)).1 = Ok found →
  optionObjects
    (store (scanAppendingHeaders (RandomBufferReader buf) (Some l)
              {| store := set_options (insert l (IOptions.set_apeOffset v o)) s;
                 trace := events |}).2) !! l
  = Some (IOptions.set_apeOffset found o)
  ∧ parseBuffer buf mimeType (Some l)
      {| store := set_options (insert l (IOptions.set_apeOffset v o)) s;
         trace := events |}
    = parseBuffer buf mimeType (Some l)
        {| store := set_options (insert l (IOptions.set_apeOffset v' o)) s;
           trace := events |}.
Proof.
  intros Hfound. split.
  - erewrite scanAppendingHeaders_refines by (simpl; apply lookup_insert_eq).
    rewrite Hfound. simpl. by rewrite lookup_insert_eq.
  - erewrite !parseBuffer_run by (simpl; apply lookup_insert_eq).
    rewrite Hfound. simpl. by rewrite !insert_insert_eq.
Qed.

(** C10. With the caller's options object in the store and a scan that
    resolves: after [scanAppendingHeaders] that object has [apeOffset] set to
    the scan's result and every other member as before, and no other options
    object has changed; the same holds after [parseBuffer] when the parser
    writes to no options object. *)
Theorem options_mutated_in_apeOffset_only reader buf mimeType l o w :
  optionObjects (store w) !! l = Some o →
  (∀ found,
     (trailerScan reader).1 = Ok found →
     ∃ o',
       optionObjects (store (scanAppendingHeaders reader (Some l) w).2) !! l = Some o'
       ∧ onlyApeOffsetSet found o o'
       ∧ ∀ l', l' ≠ l →
           optionObjects (store (scanAppendingHeaders reader (Some l) w).2) !! l'
           = optionObjects (store w) !! l')
  ∧ (parserKeepsOptions →
     ∀ found,
       (trailerScan (RandomBufferReader buf)).1 = Ok found →
       ∃ o',
         optionObjects (store (parseBuffer buf mimeType (Some l) w).2) !! l = Some o'
         ∧ onlyApeOffsetSet found o o'
         ∧ ∀ l', l' ≠ l →
             optionObjects (store (parseBuffer buf mimeType (Some l) w).2) !! l'
             = optionObjects (store w) !! l').
Proof.
  intros Ho. split.
  - intros found Hfound. exists (IOptions.set_apeOffset found o).
    rewrite (scanAppendingHeaders_refines _ _ _ _ Ho), Hfound. simpl.
    split; [apply lookup_insert_eq|]. split; [apply onlyApeOffsetSet_set|].
    intros l' Hl'. by rewrite lookup_insert_ne.
  - intros Hkeeps found Hfound. exists (IOptions.set_apeOffset found o).
    rewrite (parseBuffer_run _ _ _ _ _ Ho), Hfound, async_callOnStore. simpl.
    rewrite Hkeeps. simpl.
    split; [apply lookup_insert_eq|]. split; [apply onlyApeOffsetSet_set|].
    intros l' Hl'. by rewrite lookup_insert_ne.
Qed.

(** ** Repeated runs *)

(** A reference that is not in the store: the scan fails, at the latest when
    it writes its result. *)
Lemma scanAppendingHeaders_dangling reader l w :
  optionObjects (store w) !! l = None →
  scanAppendingHeaders reader (Some l) w
  = (Rejected match (trailerScan reader).1 with
              | Ok _ => HostError "dangling reference"
              | Thrown e | Rejected e => e
              end,
     {| store := store w; trace := trace w ++ (trailerScan reader).2 |}).
Proof.
  intros Ho. unfold scanAppendingHeaders, trailerScan, apeCandidate. unfold_async.
  simpl.
  destruct (hasID3v1Header reader) as [[|]|e|e]; simpl; try done.
  - destruct (getLyricsHeaderLength reader) as [n|e|e]; simpl;
      rewrite <- ?app_assoc; simpl; try done.
    destruct (findApeFooterOffset reader _) as [found|e|e]; simpl;
      rewrite ?Ho; simpl; rewrite <- ?app_assoc; simpl; done.
  - destruct (findApeFooterOffset reader _) as [found|e|e]; simpl;
      rewrite ?Ho; simpl; rewrite <- ?app_assoc; simpl; done.
Qed.

Lemma parseBuffer_dangling buf mimeType l w :
  optionObjects (store w) !! l = None →
  parseBuffer buf mimeType (Some l) w
  = (Rejected match (trailerScan (RandomBufferReader buf)).1 with
              | Ok _ => HostError "dangling reference"
              | Thrown e | Rejected e => e
              end,
     {| store := store w;
        trace := trace w ++ (trailerScan (RandomBufferReader buf)).2 |}).
Proof.
  intros Ho. unfold parseBuffer.
  unfold async at 1. unfold bind at 1. unfold defaultOptions.
  unfold bind at 1. unfold await at 1.
  by rewrite (scanAppendingHeaders_dangling _ _ _ Ho).
Qed.

(** What [parseBuffer] yields is settled by the buffer, the MIME type and
    the members of the options other than [apeOffset]. *)
Lemma parseBuffer_result_local buf mimeType l l' o o' w w' :
  parserStateIsLocal →
  optionObjects (store w) !! l = Some o →
  optionObjects (store w') !! l' = Some o' →
  IOptions.set_apeOffset None o = IOptions.set_apeOffset None o' →
  (parseBuffer buf mimeType (Some l) w).1 = (parseBuffer buf mimeType (Some l') w').1.
Proof.
  intros Hlocal Ho Ho' Hagree.
  rewrite (parseBuffer_run _ _ _ _ _ Ho), (parseBuffer_run _ _ _ _ _ Ho').
  destruct (trailerScan (RandomBufferReader buf)).1 as [found|e|e]; [|done|done].
  rewrite !async_callOnStore. simpl. f_equal. apply Hlocal.
  unfold handed. simpl. rewrite !lookup_insert_eq.
  assert (IOptions.set_apeOffset found o = IOptions.set_apeOffset found o') as ->.
  { by rewrite <- (set_apeOffset_twice found None o), Hagree. }
  done.
Qed.

Lemma parseBuffer_options_after buf mimeType l o w :
  parserKeepsOptions →
  optionObjects (store w) !! l = Some o →
  ∃ o1,
    optionObjects (store (parseBuffer buf mimeType (Some l) w).2) !! l = Some o1
    ∧ IOptions.set_apeOffset None o1 = IOptions.set_apeOffset None o.
Proof.
  intros Hkeeps Ho. rewrite (parseBuffer_run _ _ _ _ _ Ho).
  destruct (trailerScan (RandomBufferReader buf)).1 as [found|e|e];
    [|by exists o|by exists o].
  rewrite async_callOnStore. simpl. rewrite Hkeeps. simpl.
  exists (IOptions.set_apeOffset found o). by rewrite lookup_insert_eq.
Qed.

Lemma parseStream_result_local stream mimeType l l' o w w' :
  parserStateIsLocal →
  optionObjects (store w) !! l = Some o →
  optionObjects (store w') !! l' = Some o →
  (parseStream stream mimeType (Some l) w).1 = (parseStream stream mimeType (Some l') w').1.
Proof.
  intros Hlocal Ho Ho'.
  rewrite (parseStream_run _ _ _ _ _ Ho), (parseStream_run _ _ _ _ _ Ho').
  rewrite !callOnStore_run. simpl. apply Hlocal.
  unfold handed. simpl. by rewrite !lookup_insert_eq, Ho, Ho'.
Qed.

Lemma parseStream_options_after stream mimeType l w :
  parserKeepsOptions →
  optionObjects (store (parseStream stream mimeType (Some l) w).2) !! l
  = optionObjects (store w) !! l.
Proof.
  intros Hkeeps.
  destruct (optionObjects (store w) !! l) as [o|] eqn:Ho.
  - rewrite (parseStream_run _ _ _ _ _ Ho), callOnStore_run. simpl.
    by rewrite Hkeeps.
  - unfold parseStream, parseFromTokenizer. unfold_async. simpl.
    rewrite lookup_insert_eq. simpl.
    destruct (truthyNum (ITokenizer.fileSize (fromStream stream))); simpl.
    + pose proof (Hkeeps (fresh (dom (tokenizerObjects (store w)))) mimeType (Some l)
                    (set_tokenizers
                       (insert (fresh (dom (tokenizerObjects (store w))))
                          (fromStream stream)) (store w))) as Hk.
      destruct (parseOnContentType _ _ _ _) as [[m|e|e] s']; simpl in *;
        by rewrite Hk.
    + by rewrite Ho.
Qed.

(** On a reference that is not in the store [parseStream] yields the same
    whatever else the store holds, as long as the parser is handed the
    same. *)
Lemma parseStream_result_dangling stream mimeType l w w' :
  parserStateIsLocal →
  optionObjects (store w) !! l = None →
  optionObjects (store w') !! l = None →
  (parseStream stream mimeType (Some l) w).1 = (parseStream stream mimeType (Some l) w').1.
Proof.
  intros Hlocal Ho Ho'.
  unfold parseStream, parseFromTokenizer. unfold_async. simpl.
  rewrite !lookup_insert_eq. simpl.
  destruct (truthyNum (ITokenizer.fileSize (fromStream stream))); simpl.
  - pose proof (Hlocal (fresh (dom (tokenizerObjects (store w))))
                  (fresh (dom (tokenizerObjects (store w')))) mimeType (Some l) (Some l)
                  (set_tokenizers
                     (insert (fresh (dom (tokenizerObjects (store w))))
                        (fromStream stream)) (store w))
                  (set_tokenizers
                     (insert (fresh (dom (tokenizerObjects (store w'))))
                        (fromStream stream)) (store w'))) as Hsame.
    unfold handed in Hsame. simpl in Hsame.
    rewrite !lookup_insert_eq, Ho, Ho' in Hsame. specialize (Hsame eq_refl).
    destruct (parseOnContentType _ _ _ _) as [r1 s1],
             (parseOnContentType _ _ _ _) as [r2 s2]. simpl in *. by subst.
  - by rewrite Ho, Ho'.
Qed.

(** C7. Two runs on the same bytes and the same options yield the same
    result, and so the same format, native tags, common tags and warnings,
    or the same failure. The second run starts from the store the first one
    left: the options object as the first run changed it, or a new empty one
    when none was passed. The parser is taken to keep its state local to a
    parse and to write to no options object. *)
Theorem parse_repeatable buf stream mimeType options w :
  parserStateIsLocal →
  parserKeepsOptions →
  (parseBuffer buf mimeType options (parseBuffer buf mimeType options w).2).1
  = (parseBuffer buf mimeType options w).1
  ∧ (parseStream stream mimeType options (parseStream stream mimeType options w).2).1
    = (parseStream stream mimeType options w).1.
Proof.
  intros Hlocal Hkeeps. split.
  - destruct options as [l|].
    + destruct (optionObjects (store w) !! l) as [o|] eqn:Ho.
      * destruct (parseBuffer_options_after buf mimeType l o w Hkeeps Ho)
          as (o1 & Ho1 & Hagree).
        by apply (parseBuffer_result_local _ _ _ _ o1 o).
      * rewrite (parseBuffer_dangling _ _ _ _ Ho). simpl.
        by rewrite parseBuffer_dangling.
    + rewrite (parseBuffer_default _ _ w).
      rewrite (parseBuffer_default _ _ (parseBuffer _ _ _ _).2).
      eapply parseBuffer_result_local; [done| | |reflexivity]; simpl;
        apply lookup_insert_eq.
  - destruct options as [l|].
    + pose proof (parseStream_options_after stream mimeType l w Hkeeps) as Hafter.
      destruct (optionObjects (store w) !! l) as [o|] eqn:Ho.
      * by apply (parseStream_result_local _ _ _ _ o).
      * by apply parseStream_result_dangling.
    + rewrite (parseStream_default _ _ w).
      rewrite (parseStream_default _ _ (parseStream _ _ _ _).2).
      eapply parseStream_result_local; [done| |]; simpl; apply lookup_insert_eq.
Qed.

End CoreFacts.

(** ** The entry points on sample inputs *)

(** The reporting parser keeps its state local and writes to no options. *)
Lemma bufferHost_state_is_local : parserStateIsLocal.
Proof.
  intros tokenizer tokenizer' mimeType options options' s s' Hhanded.
  unfold handed in Hhanded. simpl. unfold Trailer.reportingParser. simpl.
  injection Hhanded as Htok Hopt. rewrite Htok.
  destruct options, options'; simpl in *; [|done|done|done].
  injection Hopt as ->. done.
Qed.

Lemma bufferHost_keeps_options : parserKeepsOptions.
Proof. by intros tokenizer mimeType options s. Qed.

(** C1, counterexample. The caller passes [{ apeOffset: 7 }] with a buffer of
    4 bytes of audio and an APEv2 footer; the scan finds the tag at offset 4.
    After [parseBuffer] the caller's object holds 4, and 4 is what the parser
    was handed. *)
Lemma caller_apeOffset_replaced :
  IOptions.apeOffset Sample.callerOptions = Some 7
  ∧ (trailerScan (RandomBufferReader Sample.apeFile)).1 = Ok (Some 4)
  ∧ IOptions.apeOffset
      <$> optionObjects
            (store (parseBuffer Sample.apeFile None (Some 1%positive)
                      (Sample.start (Sample.storeWith Sample.callerOptions))).2)
          !! 1%positive
    = Some (Some 4)
  ∧ match (parseBuffer Sample.apeFile None (Some 1%positive)
             (Sample.start (Sample.storeWith Sample.callerOptions))).1 with
    | Ok metadata =>
        IOptions.apeOffset <$> IAudioMetadata.native _ _ _ metadata = Some (Some 4)
    | _ => False
    end.
Proof. by vm_compute. Qed.

Lemma parseBuffer_overwrites_apeOffset_witness :
  (trailerScan (RandomBufferReader Sample.apeFile)).1 = Ok (Some 4)
  ∧ parseBuffer Sample.apeFile None (Some 1%positive)
      {| store := set_options (insert 1%positive
                                 (IOptions.set_apeOffset (Some 7) IOptions.empty))
                    (Sample.storeWith IOptions.empty);
         trace := [] |}
    = parseBuffer Sample.apeFile None (Some 1%positive)
        {| store := set_options (insert 1%positive
                                   (IOptions.set_apeOffset (Some 99) IOptions.empty))
                      (Sample.storeWith IOptions.empty);
           trace := [] |}.
Proof.
  assert ((trailerScan (RandomBufferReader Sample.apeFile)).1 = Ok (Some 4)) as Hfound
    by (vm_compute; reflexivity).
  split; [exact Hfound|].
  exact (proj2 (parseBuffer_overwrites_apeOffset Sample.apeFile None 1%positive
                  IOptions.empty (Sample.storeWith IOptions.empty) [] (Some 4)
                  (Some 7) (Some 99) Hfound)).
Defined.

Lemma scanAppendingHeaders_procedure_witness :
  scanAppendingHeaders (RandomBufferReader Sample.taggedFile) (Some 1%positive)
    (Sample.start (Sample.storeWith Sample.callerOptions))
  = (Ok tt,
     {| store := set_options
                   (insert 1%positive
                      (IOptions.set_apeOffset (Some 4) Sample.callerOptions))
                   (Sample.storeWith Sample.callerOptions);
        trace := [CallHasID3v1Header; CallGetLyricsHeaderLength;
                  CallFindApeFooterOffset 36] |})
  ∧ ∃ o',
      optionObjects
        (store (scanAppendingHeaders (RandomBufferReader Sample.taggedFile)
                  (Some 1%positive)
                  (Sample.start (Sample.storeWith Sample.callerOptions))).2)
      !! 1%positive = Some o'
      ∧ IOptions.apeOffset o' = Some 4.
Proof.
  assert (hasID3v1Header (RandomBufferReader Sample.taggedFile) = Ok true) as Hid3
    by (vm_compute; reflexivity).
  assert (true = true →
          getLyricsHeaderLength (RandomBufferReader Sample.taggedFile) = Ok 26)
    as Hlyrics by (intros _; vm_compute; reflexivity).
  assert (findApeFooterOffset (RandomBufferReader Sample.taggedFile)
            (apeCandidate
               (IRandomReader.fileSize (RandomBufferReader Sample.taggedFile))
               true 26) = Ok (Some 4)) as Hape
    by (vm_compute; reflexivity).
  destruct (scanAppendingHeaders_procedure
              (RandomBufferReader Sample.taggedFile) 1%positive
              Sample.callerOptions
              (Sample.start (Sample.storeWith Sample.callerOptions))
              true 26 (Some 4) eq_refl Hid3 Hlyrics Hape)
    as (Hrun & _ & o' & Hafter & Hfield & _).
  split; [exact Hrun|].
  exists o'. split; [exact Hafter | exact Hfield].
Defined.

Lemma trailer_scan_buffer_only_witness :
  filter scanEvent
    (trace (parseStream Sample.taggedFile None (Some 1%positive)
              (Sample.start (Sample.storeWith Sample.callerOptions))).2) = []
  ∧ (∃ w1 tokenizer,
       parseStream Sample.taggedFile None (Some 1%positive)
         (Sample.start (Sample.storeWith Sample.callerOptions))
       = callOnStore (CallParseOnContentType tokenizer None (Some 1%positive))
           (parseOnContentType tokenizer None (Some 1%positive)) w1
       ∧ trace w1 = [] ++ [CallFromStream])
  ∧ (∃ rest,
       trace (parseBuffer Sample.taggedFile None (Some 1%positive)
                (Sample.start (Sample.storeWith Sample.callerOptions))).2
       = [] ++ (trailerScan (RandomBufferReader Sample.taggedFile)).2 ++ rest
       ∧ filter scanEvent rest = [])
  ∧ (∃ w1 tokenizer o',
       parseBuffer Sample.taggedFile None (Some 1%positive)
         (Sample.start (Sample.storeWith Sample.callerOptions))
       = async (callOnStore (CallParseOnContentType tokenizer None (Some 1%positive))
                  (parseOnContentType tokenizer None (Some 1%positive))) w1
       ∧ optionObjects (store w1) !! 1%positive = Some o'
       ∧ IOptions.apeOffset o' = Some 4).
Proof.
  assert (optionObjects (store (Sample.start (Sample.storeWith Sample.callerOptions)))
          !! 1%positive = Some Sample.callerOptions) as Ho by reflexivity.
  assert ((trailerScan (RandomBufferReader Sample.taggedFile)).1 = Ok (Some 4))
    as Hfound by (vm_compute; reflexivity).
  pose proof (trailer_scan_buffer_only Sample.taggedFile Sample.taggedFile None
                (Some 1%positive) 1%positive Sample.callerOptions _ Ho)
    as (Hstream & (w1 & tokenizer & Hrun & Htrace & _) & _ & _ & Hbuffer & Hrecorded).
  split; [exact Hstream|]. split.
  { exists w1, tokenizer. split; [exact Hrun | exact Htrace]. }
  split; [exact Hbuffer|].
  destruct (Hrecorded (Some 4) Hfound)
    as (w2 & tokenizer2 & o' & Hrun2 & _ & Hafter & Hfield & _).
  exists w2, tokenizer2, o'. split; [exact Hrun2|].
  split; [exact Hafter | exact Hfield].
Defined.

(** C6, counterexample. A tokenizer over an empty buffer has [fileSize] 0;
    with [{ fileSize: 100 }] the entry point sets it to 100, and that is the
    tokenizer the parser is handed. And a tokenizer over a stream, which has
    no [fileSize], keeps none when the options provide [{ fileSize: 0 }]. *)
Lemma tokenizer_size_zero_overridden :
  (ITokenizer.fileSize (Trailer.fromBuffer []) = Some 0
   ∧ IOptions.fileSize Sample.sizeOptions = Some 100
   ∧ ITokenizer.fileSize
       <$> tokenizerObjects
             (store (parseFromTokenizer 1%positive None (Some 1%positive)
                       (Sample.start
                          (Sample.storeWithTokenizer Sample.sizeOptions
                             (Trailer.fromBuffer [])))).2)
           !! 1%positive
     = Some (Some 100))
  ∧ (ITokenizer.fileSize (Trailer.fromStream Sample.audio) = None
     ∧ IOptions.fileSize Sample.zeroSizeOptions = Some 0
     ∧ ITokenizer.fileSize
         <$> tokenizerObjects
               (store (parseFromTokenizer 1%positive None (Some 1%positive)
                         (Sample.start
                            (Sample.storeWithTokenizer Sample.zeroSizeOptions
                               (Trailer.fromStream Sample.audio)))).2)
             !! 1%positive
       = Some None).
Proof. by vm_compute. Qed.

Lemma parseFromTokenizer_fileSize_override_witness :
  ∃ k',
    parseFromTokenizer 1%positive None (Some 1%positive)
      (Sample.start (Sample.storeWithTokenizer Sample.sizeOptions
                       (Trailer.fromStream Sample.audio)))
    = callOnStore (CallParseOnContentType 1%positive None (Some 1%positive))
        (parseOnContentType 1%positive None (Some 1%positive))
        {| store := set_tokenizers (insert 1%positive k')
                      (Sample.storeWithTokenizer Sample.sizeOptions
                         (Trailer.fromStream Sample.audio));
           trace := [] |}
    ∧ ITokenizer.fileSize k' = Some 100.
Proof.
  destruct (parseFromTokenizer_fileSize_override 1%positive
              (Trailer.fromStream Sample.audio) 1%positive Sample.sizeOptions None
              (Sample.start (Sample.storeWithTokenizer Sample.sizeOptions
                               (Trailer.fromStream Sample.audio)))
              eq_refl eq_refl)
    as (k' & Hrun & _ & _ & _ & Hadopt & _).
  exists k'. split; [exact Hrun|]. exact (Hadopt eq_refl eq_refl).
Defined.

Lemma parse_repeatable_witness :
  (parseBuffer Sample.taggedFile None (Some 1%positive)
     (parseBuffer Sample.taggedFile None (Some 1%positive)
        (Sample.start (Sample.storeWith Sample.callerOptions))).2).1
  = (parseBuffer Sample.taggedFile None (Some 1%positive)
       (Sample.start (Sample.storeWith Sample.callerOptions))).1
  ∧ (parseStream Sample.taggedFile None (Some 1%positive)
       (parseStream Sample.taggedFile None (Some 1%positive)
          (Sample.start (Sample.storeWith Sample.callerOptions))).2).1
    = (parseStream Sample.taggedFile None (Some 1%positive)
         (Sample.start (Sample.storeWith Sample.callerOptions))).1.
Proof.
  exact (parse_repeatable Sample.taggedFile Sample.taggedFile None (Some 1%positive)
           (Sample.start (Sample.storeWith Sample.callerOptions))
           bufferHost_state_is_local bufferHost_keeps_options).
Defined.

(** C8, counterexample. A tokenizer over a buffer of four bytes has
    [fileSize] 4; called without options, [parseFromTokenizer] does not
    throw: it reads no option, calls the parser and returns what the parser
    returns. *)
Lemma sized_tokenizer_without_options_proceeds :
  ITokenizer.fileSize (Trailer.fromBuffer Sample.audio) = Some 4
  ∧ trace (parseFromTokenizer 1%positive None None
             (Sample.start (Sample.storeWithTokenizer IOptions.empty
                              (Trailer.fromBuffer Sample.audio)))).2
    = [CallParseOnContentType 1%positive None None]
  ∧ match (parseFromTokenizer 1%positive None None
             (Sample.start (Sample.storeWithTokenizer IOptions.empty
                              (Trailer.fromBuffer Sample.audio)))).1 with
    | Ok metadata =>
        IAudioMetadata.format _ _ _ metadata = Some (Trailer.fromBuffer Sample.audio)
    | _ => False
    end.
Proof. by vm_compute. Qed.

Lemma parseFromTokenizer_without_options_throws_witness :
  parseFromTokenizer 1%positive None None
    (Sample.start (Sample.storeWithTokenizer IOptions.empty
                     (Trailer.fromStream Sample.audio)))
  = (Thrown (TypeError "Cannot read property of undefined"),
     Sample.start (Sample.storeWithTokenizer IOptions.empty
                     (Trailer.fromStream Sample.audio))).
Proof.
  exact (proj1 (parseFromTokenizer_without_options_throws None) 1%positive
           (Trailer.fromStream Sample.audio)
           (Sample.start (Sample.storeWithTokenizer IOptions.empty
                            (Trailer.fromStream Sample.audio)))
           eq_refl eq_refl).
Defined.

Lemma options_mutated_in_apeOffset_only_witness :
  ∃ o',
    optionObjects
      (store (parseBuffer Sample.taggedFile None (Some 1%positive)
                (Sample.start (Sample.storeWith Sample.sizeOptions))).2)
    !! 1%positive = Some o'
    ∧ onlyApeOffsetSet (Some 4) Sample.sizeOptions o'.
Proof.
  assert ((trailerScan (RandomBufferReader Sample.taggedFile)).1 = Ok (Some 4))
    as Hfound by (vm_compute; reflexivity).
  destruct (proj2 (options_mutated_in_apeOffset_only
                     (RandomBufferReader Sample.taggedFile) Sample.taggedFile None
                     1%positive Sample.sizeOptions
                     (Sample.start (Sample.storeWith Sample.sizeOptions)) eq_refl)
              bufferHost_keeps_options (Some 4) Hfound)
    as (o' & Hafter & Honly & _).
  exists o'. split; [exact Hafter | exact Honly].
Defined.

(* ===================================================================== *)
(** * Further properties of [core.ts] *)
(* ===================================================================== *)

(** ** [ratingToStars]: thresholds *)

Section RatingThresholds.

Lemma Qfloor_ge_iff (n : Z) (y : Q) : n ≤ Qfloor y ↔ (inject_Z n <= y)%Q.
Proof.
  split.
  - intros Hn. rewrite Zle_Qle in Hn.
    pose proof (Qfloor_le y). lra.
  - intros Hn. rewrite <- (Qfloor_Z n). by apply Qfloor_resp_le.
Qed.

Lemma Qfloor_lt_iff (n : Z) (y : Q) : Qfloor y < n ↔ (y < inject_Z n)%Q.
Proof.
  split.
  - intros Hn. apply Qnot_le_lt. intros Hle. apply Qfloor_ge_iff in Hle. lia.
  - intros Hn. apply Z.nle_gt. intros Hle. apply Qfloor_ge_iff in Hle. lra.
Qed.

(** X1. [ratingToStars] is monotone in the rating. *)
Theorem ratingToStars_monotone (r r' : Q) :
  (r <= r')%Q → ratingToStars (Some r) ≤ ratingToStars (Some r').
Proof.
  intros Hr. simpl.
  assert (Math_round (r * 4) ≤ Math_round (r' * 4))
    by (apply Math_round_mono; lra).
  lia.
Qed.

Lemma ratingToStars_monotone_witness :
  ratingToStars (Some (3 # 10)%Q) ≤ ratingToStars (Some (7 # 10)%Q).
Proof. apply ratingToStars_monotone. discriminate. Defined.

(** X2. The star count changes at the odd eighths: a rating of magnitude
    at most 2^50, where the doubles the engine computes with are exact,
    yields [s] stars exactly when it lies in [[s/4 - 3/8, s/4 - 1/8)], so one
    star below 0.125, two from 0.125, three from 0.375, four from 0.625,
    five from 0.875. *)
Theorem ratingToStars_thresholds (r : Q) (s : Z) :
  (- inject_Z (2 ^ 50) <= r <= inject_Z (2 ^ 50))%Q →
  ratingToStars (Some r) = s
  ↔ (inject_Z s * (1 # 4) - (3 # 8) <= r < inject_Z s * (1 # 4) - (1 # 8))%Q.
Proof.
  intros _. simpl. unfold Math_round.
  assert (1 + Qfloor (r * 4 + (1 # 2)) = s
          ↔ s - 1 ≤ Qfloor (r * 4 + (1 # 2)) ∧ Qfloor (r * 4 + (1 # 2)) < s) as ->
    by lia.
  rewrite Qfloor_ge_iff, Qfloor_lt_iff.
  unfold Z.sub. rewrite inject_Z_plus.
  change (inject_Z (- (1))) with (- (1))%Q.
  split; intros [Hlo Hhi]; split; lra.
Qed.

Lemma ratingToStars_thresholds_witness :
  ratingToStars (Some (3 # 8)%Q) = 3
  ↔ (inject_Z 3 * (1 # 4) - (3 # 8) <= 3 # 8 < inject_Z 3 * (1 # 4) - (1 # 8))%Q.
Proof.
  apply (ratingToStars_thresholds (3 # 8) 3).
  split; discriminate.
Defined.

(** X3. Nothing clamps the result: it lies between 1 and 5 exactly for the
    ratings from -0.125 up to, and not including, 1.125. A rating of 1.125
    or more yields six stars or more, one below -0.125 yields none or
    fewer. *)
Theorem ratingToStars_range_exact (r : Q) :
  1 ≤ ratingToStars (Some r) ≤ 5 ↔ (- (1 # 8) <= r < 9 # 8)%Q.
Proof.
  simpl. unfold Math_round.
  assert (1 ≤ 1 + Qfloor (r * 4 + (1 # 2)) ≤ 5
          ↔ 0 ≤ Qfloor (r * 4 + (1 # 2)) ∧ Qfloor (r * 4 + (1 # 2)) < 5) as ->
    by lia.
  rewrite Qfloor_ge_iff, Qfloor_lt_iff.
  change (inject_Z 0) with 0%Q. change (inject_Z 5) with 5%Q.
  split; intros [Hlo Hhi]; split; lra.
Qed.

End RatingThresholds.

(** ** [orderTags]: keys, concatenation, counts *)

Section OrderTagsMore.
Context {V : Type}.
Implicit Types (tags dict : gmap string (list V)) (nativeTags : list (ITag.t V)).

Lemma valuesOf_app key nativeTags1 nativeTags2 :
  valuesOf key (nativeTags1 ++ nativeTags2)
  = valuesOf key nativeTags1 ++ valuesOf key nativeTags2.
Proof. unfold valuesOf. by rewrite filter_app, fmap_app. Qed.

Lemma valuesOf_nil_iff key nativeTags :
  valuesOf key nativeTags = [] ↔ key ∉ ITag.id <$> nativeTags.
Proof.
  induction nativeTags as [|tag rest IH]; simpl.
  - split; [intros _; apply not_elem_of_nil | done].
  - rewrite not_elem_of_cons.
    destruct (decide (ITag.id tag = key)) as [<-|Hne].
    + rewrite valuesOf_cons_eq. split; [done | by intros [? _]].
    + rewrite valuesOf_cons_ne by done. rewrite IH. split; [by split | by intros [_ ?]].
Qed.

(** A list on which [orderTags] returns holds no inherited name. *)
Lemma orderTags_ok_safe nativeTags dict :
  orderTags nativeTags = Ok dict →
  Forall (λ tag, ITag.id tag ∉ objectPrototypeKeys) nativeTags.
Proof.
  intros Hok.
  destruct (decide (Forall (λ tag, ITag.id tag ∉ objectPrototypeKeys) nativeTags))
    as [|Hnot]; [done|].
  apply not_Forall_Exists in Hnot; [|apply _].
  assert (Exists (λ tag, ITag.id tag ∈ objectPrototypeKeys) nativeTags) as Hex.
  { eapply Exists_impl; [exact Hnot|]. simpl. intros tag Htag.
    by apply dec_stable. }
  unfold orderTags in Hok.
  rewrite orderTags_loop_inherited in Hok; [done| |done].
  intros key _. apply lookup_empty.
Qed.

Lemma orderTags_lookup nativeTags dict key :
  orderTags nativeTags = Ok dict →
  dict !! key = collected None (valuesOf key nativeTags).
Proof.
  intros Hok. pose proof (orderTags_ok_safe _ _ Hok) as Hsafe.
  destruct (orderTags_loop_safe nativeTags ∅ Hsafe) as (dict' & Hrun & Hdict).
  unfold orderTags in Hok. rewrite Hrun in Hok. injection Hok as <-.
  by rewrite Hdict, lookup_empty.
Qed.

(** X4. The keys of the dictionary [orderTags] returns are exactly the ids
    that occur in the list, and no key holds an empty array. *)
Theorem orderTags_keys nativeTags dict key :
  orderTags nativeTags = Ok dict →
  (is_Some (dict !! key) ↔ key ∈ ITag.id <$> nativeTags)
  ∧ dict !! key ≠ Some [].
Proof.
  intros Hok. rewrite (orderTags_lookup _ _ key Hok).
  pose proof (valuesOf_nil_iff key nativeTags) as Hnil.
  destruct (valuesOf key nativeTags) as [|v vs]; simpl.
  - split; [|done]. split; [by intros [? ?]|]. intros Hin.
    by apply Hnil in Hin.
  - split; [|done]. split; [|by eexists]. intros _.
    destruct (decide (key ∈ ITag.id <$> nativeTags)) as [|Hout]; [done|].
    by apply Hnil in Hout.
Qed.

(** X5. [orderTags] of a concatenation: where it returns on both parts it
    returns on the whole, each key holding the values of the first part
    followed by those of the second; and a failure on the first part is the
    failure on the whole. *)
Theorem orderTags_app nativeTags1 nativeTags2 :
  (∀ dict1 dict2,
     orderTags nativeTags1 = Ok dict1 →
     orderTags nativeTags2 = Ok dict2 →
     orderTags (nativeTags1 ++ nativeTags2)
     = Ok (union_with (λ vs ws, Some (vs ++ ws)) dict1 dict2))
  ∧ (∀ e, orderTags nativeTags1 = Thrown e →
          orderTags (nativeTags1 ++ nativeTags2) = Thrown e).
Proof.
  split.
  - intros dict1 dict2 Hok1 Hok2.
    pose proof (orderTags_ok_safe _ _ Hok1) as Hsafe1.
    pose proof (orderTags_ok_safe _ _ Hok2) as Hsafe2.
    destruct (orderTags_loop_safe (nativeTags1 ++ nativeTags2) ∅)
      as (dict & Hrun & Hdict); [by apply Forall_app|].
    unfold orderTags at 1. rewrite Hrun. f_equal. apply map_eq. intros key.
    rewrite Hdict, lookup_empty, lookup_union_with.
    rewrite (orderTags_lookup _ _ key Hok1), (orderTags_lookup _ _ key Hok2).
    rewrite valuesOf_app.
    destruct (valuesOf key nativeTags1), (valuesOf key nativeTags2); simpl;
      by rewrite ?app_nil_r.
  - intros e Hthrown.
    destruct (decide (Forall (λ tag, ITag.id tag ∉ objectPrototypeKeys) nativeTags1))
      as [Hsafe|Hnot].
    + destruct (orderTags_loop_safe nativeTags1 ∅ Hsafe) as (dict & Hrun & _).
      unfold orderTags in Hthrown. by rewrite Hrun in Hthrown.
    + apply not_Forall_Exists in Hnot; [|apply _].
      assert (Exists (λ tag, ITag.id tag ∈ objectPrototypeKeys) nativeTags1) as Hex.
      { eapply Exists_impl; [exact Hnot|]. simpl. intros tag Htag.
        by apply dec_stable. }
      unfold orderTags in *.
      rewrite orderTags_loop_inherited in Hthrown;
        [|intros key _; apply lookup_empty|done].
      injection Hthrown as <-.
      apply orderTags_loop_inherited; [intros key _; apply lookup_empty|].
      apply Exists_app. by left.
Qed.

Lemma valueCount_push tags key (v : V) :
  valueCount (<[key := default [] (tags !! key) ++ [v]]> tags)
  = S (valueCount tags).
Proof.
  unfold valueCount.
  assert (∀ (z1 z2 : list V) (y : nat),
            (length z1 + (length z2 + y) = length z2 + (length z1 + y))%nat)
    as Hcomm by (intros; lia).
  destruct (tags !! key) as [vs|] eqn:Hkey; simpl.
  - rewrite <- insert_delete_eq.
    rewrite map_fold_insert_L; [|intros; apply Hcomm|apply lookup_delete_eq].
    rewrite (map_fold_delete_L _ _ key vs tags); [|intros; apply Hcomm|done].
    rewrite length_app. simpl. lia.
  - rewrite map_fold_insert_L; [|intros; apply Hcomm|done]. done.
Qed.

Lemma orderTags_loop_count nativeTags : ∀ tags dict,
  Forall (λ tag, ITag.id tag ∉ objectPrototypeKeys) nativeTags →
  orderTags_loop tags nativeTags = Ok dict →
  valueCount dict = (valueCount tags + length nativeTags)%nat.
Proof.
  induction nativeTags as [|tag rest IH]; intros tags dict Hsafe Hrun.
  - simpl in *. injection Hrun as <-. lia.
  - inversion Hsafe as [|? ? Htag Hrest]; subst.
    simpl in Hrun. rewrite orderTags_step_safe in Hrun by done.
    rewrite (IH _ _ Hrest Hrun), valueCount_push. simpl. lia.
Qed.

(** X6. No value is lost and none is added: the arrays of the dictionary
    [orderTags] returns hold as many values as the list has tags. *)
Theorem orderTags_value_count nativeTags dict :
  orderTags nativeTags = Ok dict →
  valueCount dict = length nativeTags.
Proof.
  intros Hok. pose proof (orderTags_ok_safe _ _ Hok) as Hsafe.
  rewrite (orderTags_loop_count nativeTags ∅ dict Hsafe Hok).
  unfold valueCount. by rewrite map_fold_empty.
Qed.

End OrderTagsMore.

Lemma orderTags_keys_witness :
  (is_Some ((<["ARTIST" := [1; 3]]> (<["TITLE" := [2]]> ∅) : gmap string (list Z))
            !! "ARTIST")
   ↔ "ARTIST" ∈ ITag.id <$> [ {| ITag.id := "ARTIST"; ITag.value := 1 |};
                               {| ITag.id := "TITLE"; ITag.value := 2 |};
                               {| ITag.id := "ARTIST"; ITag.value := 3 |} ])
  ∧ (<["ARTIST" := [1; 3]]> (<["TITLE" := [2]]> ∅) : gmap string (list Z))
    !! "ARTIST" ≠ Some [].
Proof.
  apply (orderTags_keys [ {| ITag.id := "ARTIST"; ITag.value := 1 |};
                          {| ITag.id := "TITLE"; ITag.value := 2 |};
                          {| ITag.id := "ARTIST"; ITag.value := 3 |} ]).
  by vm_compute.
Defined.

Lemma orderTags_value_count_witness :
  valueCount (<["ARTIST" := [1; 3]]> (<["TITLE" := [2]]> ∅) : gmap string (list Z))
  = 3%nat.
Proof.
  apply (orderTags_value_count [ {| ITag.id := "ARTIST"; ITag.value := 1 |};
                                 {| ITag.id := "TITLE"; ITag.value := 2 |};
                                 {| ITag.id := "ARTIST"; ITag.value := 3 |} ]).
  by vm_compute.
Defined.

Lemma orderTags_groups_by_id_witness :
  ∃ dict, orderTags [ {| ITag.id := "ARTIST"; ITag.value := 1 |};
                      {| ITag.id := "TITLE"; ITag.value := 2 |};
                      {| ITag.id := "ARTIST"; ITag.value := 3 |} ] = Ok dict
          ∧ dict !! "ARTIST" = Some [1; 3].
Proof.
  destruct (orderTags_groups_by_id
              [ {| ITag.id := "ARTIST"; ITag.value := 1 |};
                {| ITag.id := "TITLE"; ITag.value := 2 |};
                {| ITag.id := "ARTIST"; ITag.value := 3 |} ])
    as (dict & Hrun & Hdict).
  - repeat (constructor; [apply (bool_decide_unpack _); by vm_compute|]).
    constructor.
  - exists dict. split; [exact Hrun|]. exact (Hdict "ARTIST").
Defined.

(** ** The entry points: failures, defaults, sizes *)

Section MoreCoreFacts.
Context `{Collaborators}.

Lemma fresh_options (s : Store) :
  optionObjects s !! fresh (dom (optionObjects s)) = None.
Proof. apply not_elem_of_dom, is_fresh. Qed.

Lemma fresh_tokenizer (s : Store) :
  tokenizerObjects s !! fresh (dom (tokenizerObjects s)) = None.
Proof. apply not_elem_of_dom, is_fresh. Qed.

Lemma trailerScan_rejects reader e :
  probeRejects reader e → (trailerScan reader).1 = Rejected e.
Proof.
  unfold probeRejects, trailerScan, apeCandidate.
  intros [Hid3|[[Hid3 Hlyrics]|[[Hid3 Hape]|(lyricsLen & Hid3 & Hlyrics & Hape)]]];
    rewrite Hid3; try done.
  - by rewrite Hlyrics.
  - simpl. by rewrite Hape.
  - rewrite Hlyrics. simpl. by rewrite Hape.
Qed.

Lemma trailerScan_probes_only reader :
  filter (λ ev, ¬ scanEvent ev) (trailerScan reader).2 = [].
Proof.
  unfold trailerScan.
  destruct (hasID3v1Header reader) as [[|]|e|e]; try done.
  by destruct (getLyricsHeaderLength reader).
Qed.

(** The scan on any reference, in the store or not. *)
Lemma scanAppendingHeaders_failed reader l w e :
  (trailerScan reader).1 = Rejected e →
  scanAppendingHeaders reader (Some l) w
  = (Rejected e, {| store := store w; trace := trace w ++ (trailerScan reader).2 |}).
Proof.
  intros Hfails. destruct (optionObjects (store w) !! l) as [o|] eqn:Ho.
  - by rewrite (scanAppendingHeaders_refines _ _ _ _ Ho), Hfails.
  - by rewrite (scanAppendingHeaders_dangling _ _ _ Ho), Hfails.
Qed.

(** X8. When a probe rejects, [scanAppendingHeaders] rejects with the
    probe's error and writes nothing: the store is as it was, and so is
    [options.apeOffset]. *)
Theorem scanAppendingHeaders_probe_rejects reader l w e :
  probeRejects reader e →
  (scanAppendingHeaders reader (Some l) w).1 = Rejected e
  ∧ store (scanAppendingHeaders reader (Some l) w).2 = store w.
Proof.
  intros Hfails. apply trailerScan_rejects in Hfails.
  by rewrite (scanAppendingHeaders_failed _ _ _ _ Hfails).
Qed.

(** X9. When a probe of the trailer scan rejects, [parseBuffer] rejects with
    the probe's error; it makes no tokenizer and does not call the parser
    (the trace gains probes only), and the store is as it was. *)
Theorem parseBuffer_probe_rejects buf mimeType l w e :
  probeRejects (RandomBufferReader buf) e →
  (parseBuffer buf mimeType (Some l) w).1 = Rejected e
  ∧ store (parseBuffer buf mimeType (Some l) w).2 = store w
  ∧ filter (λ ev, ¬ scanEvent ev) (trace (parseBuffer buf mimeType (Some l) w).2)
    = filter (λ ev, ¬ scanEvent ev) (trace w).
Proof.
  intros Hfails. apply trailerScan_rejects in Hfails.
  assert (parseBuffer buf mimeType (Some l) w
          = (Rejected e,
             {| store := store w;
                trace := trace w ++ (trailerScan (RandomBufferReader buf)).2 |}))
    as ->.
  { destruct (optionObjects (store w) !! l) as [o|] eqn:Ho.
    - by rewrite (parseBuffer_run _ _ _ _ _ Ho), Hfails.
    - by rewrite (parseBuffer_dangling _ _ _ _ Ho), Hfails. }
  simpl. by rewrite filter_app, trailerScan_probes_only, app_nil_r.
Qed.

(** X10. Scanning twice is scanning once: a second [scanAppendingHeaders]
    on the same reader and options ends as the first did and leaves the
    store the first one left. *)
Theorem scanAppendingHeaders_idempotent reader l w :
  (scanAppendingHeaders reader (Some l)
     (scanAppendingHeaders reader (Some l) w).2).1
  = (scanAppendingHeaders reader (Some l) w).1
  ∧ store (scanAppendingHeaders reader (Some l)
             (scanAppendingHeaders reader (Some l) w).2).2
    = store (scanAppendingHeaders reader (Some l) w).2.
Proof.
  destruct (optionObjects (store w) !! l) as [o|] eqn:Ho.
  - rewrite (scanAppendingHeaders_refines _ _ _ _ Ho).
    destruct (trailerScan reader).1 as [found|e|e] eqn:Hscan.
    + erewrite scanAppendingHeaders_refines by (simpl; apply lookup_insert_eq).
      rewrite Hscan. simpl. split; [done|].
      unfold set_options. simpl. by rewrite insert_insert_eq.
    + erewrite scanAppendingHeaders_refines by (simpl; exact Ho).
      by rewrite Hscan.
    + erewrite scanAppendingHeaders_refines by (simpl; exact Ho).
      by rewrite Hscan.
  - rewrite (scanAppendingHeaders_dangling _ _ _ Ho). simpl.
    by erewrite scanAppendingHeaders_dangling by (simpl; exact Ho).
Qed.


(** X12. [parseStream] passes [options.fileSize] on: when the tokenizer over
    the stream has no size and the options hold a non-zero [fileSize], the
    parser is handed a new tokenizer that differs from the one strtok3 made
    in [fileSize] alone, which is [options.fileSize]; no options object is
    written. *)
Theorem parseStream_adopts_options_size stream mimeType l o w :
  optionObjects (store w) !! l = Some o →
  truthyNum (ITokenizer.fileSize (fromStream stream)) = false →
  truthyNum (IOptions.fileSize o) = true →
  ∃ w1 tokenizer,
    parseStream stream mimeType (Some l) w
    = callOnStore (CallParseOnContentType tokenizer mimeType (Some l))
        (parseOnContentType tokenizer mimeType (Some l)) w1
    ∧ tokenizerObjects (store w) !! tokenizer = None
    ∧ tokenizerObjects (store w1) !! tokenizer
      = Some (ITokenizer.set_fileSize (IOptions.fileSize o) (fromStream stream))
    ∧ optionObjects (store w1) = optionObjects (store w).
Proof.
  intros Ho Hstream Hsize. eexists _, _.
  split; [apply (parseStream_run _ _ _ _ _ Ho)|]. simpl.
  split; [apply fresh_tokenizer|]. split; [|done].
  rewrite lookup_insert_eq. unfold adoptFileSize. by rewrite Hstream, Hsize.
Qed.

Lemma scanAppendingHeaders_resolved reader l o w :
  optionObjects (store w) !! l = Some o →
  (scanAppendingHeaders reader (Some l) w).1 = Ok tt →
  ∃ found, (trailerScan reader).1 = Ok found.
Proof.
  intros Ho. rewrite (scanAppendingHeaders_refines _ _ _ _ Ho).
  destruct (trailerScan reader).1 as [found|e|e]; [by eexists|done|done].
Qed.

(** X13. [parseBuffer] does not pass [options.fileSize] on when the
    tokenizer over the buffer has a non-zero size: once the scan has
    resolved, the parser is handed the tokenizer as strtok3 made it,
    whatever the options hold. *)
Theorem parseBuffer_keeps_tokenizer_size buf mimeType l o w :
  optionObjects (store w) !! l = Some o →
  truthyNum (ITokenizer.fileSize (fromBuffer buf)) = true →
  (scanAppendingHeaders (RandomBufferReader buf) (Some l) w).1 = Ok tt →
  ∃ w1 tokenizer,
    parseBuffer buf mimeType (Some l) w
    = async (callOnStore (CallParseOnContentType tokenizer mimeType (Some l))
               (parseOnContentType tokenizer mimeType (Some l))) w1
    ∧ tokenizerObjects (store w) !! tokenizer = None
    ∧ tokenizerObjects (store w1) !! tokenizer = Some (fromBuffer buf).
Proof.
  intros Ho Hsize Hscan.
  destruct (scanAppendingHeaders_resolved _ _ _ _ Ho Hscan) as [found Hfound].
  rewrite (parseBuffer_run _ _ _ _ _ Ho), Hfound. eexists _, _.
  split; [reflexivity|]. simpl. split; [apply fresh_tokenizer|].
  rewrite lookup_insert_eq. unfold adoptFileSize. by rewrite Hsize.
Qed.

(** X14. [parseStream] called without options does not fail on the missing
    argument: the parser is called with a new empty options object and with
    the tokenizer as strtok3 made it, and no options object of the store
    changes before that. *)
Theorem parseStream_without_options stream mimeType w :
  ∃ w1 tokenizer l,
    parseStream stream mimeType None w
    = callOnStore (CallParseOnContentType tokenizer mimeType (Some l))
        (parseOnContentType tokenizer mimeType (Some l)) w1
    ∧ optionObjects (store w) !! l = None
    ∧ optionObjects (store w1) = <[l := IOptions.empty]> (optionObjects (store w))
    ∧ tokenizerObjects (store w) !! tokenizer = None
    ∧ tokenizerObjects (store w1)
      = <[tokenizer := fromStream stream]> (tokenizerObjects (store w))
    ∧ trace w1 = trace w ++ [CallFromStream].
Proof.
  rewrite parseStream_default.
  erewrite parseStream_run by (simpl; apply lookup_insert_eq).
  eexists _, _, _. split; [reflexivity|]. simpl.
  split; [apply fresh_options|]. split; [done|].
  split; [apply fresh_tokenizer|]. split; [|done].
  unfold adoptFileSize. simpl. by rewrite andb_false_r.
Qed.

(** X15. [parseBuffer] called without options hands the parser a new
    options object that holds the scan's result in [apeOffset] and nothing
    else, once the scan has resolved; no options object of the store is
    changed by then. *)
Theorem parseBuffer_without_options buf mimeType w found :
  (trailerScan (RandomBufferReader buf)).1 = Ok found →
  ∃ w1 tokenizer l,
    parseBuffer buf mimeType None w
    = async (callOnStore (CallParseOnContentType tokenizer mimeType (Some l))
               (parseOnContentType tokenizer mimeType (Some l))) w1
    ∧ optionObjects (store w) !! l = None
    ∧ optionObjects (store w1)
      = <[l := IOptions.set_apeOffset found IOptions.empty]> (optionObjects (store w)).
Proof.
  intros Hfound. rewrite parseBuffer_default.
  erewrite parseBuffer_run by (simpl; apply lookup_insert_eq).
  rewrite Hfound. eexists _, _, _. split; [reflexivity|]. simpl.
  split; [apply fresh_options|]. by rewrite insert_insert_eq.
Qed.

End MoreCoreFacts.

(** ** Further runs on sample inputs *)

Lemma parseFromTokenizer_sized_without_options_witness :
  parseFromTokenizer 1%positive None None
    (Sample.start (Sample.storeWithTokenizer IOptions.empty
                     (Trailer.fromBuffer Sample.audio)))
  = callOnStore (CallParseOnContentType 1%positive None None)
      (parseOnContentType 1%positive None None)
      (Sample.start (Sample.storeWithTokenizer IOptions.empty
                       (Trailer.fromBuffer Sample.audio))).
Proof.
  exact (parseFromTokenizer_sized_without_options 1%positive
           (Trailer.fromBuffer Sample.audio) None
           (Sample.start (Sample.storeWithTokenizer IOptions.empty
                            (Trailer.fromBuffer Sample.audio)))
           eq_refl eq_refl).
Defined.

Lemma scanAppendingHeaders_probe_rejects_witness :
  (scanAppendingHeaders Sample.brokenReader (Some 1%positive)
     (Sample.start (Sample.storeWith Sample.callerOptions))).1
  = Rejected (HostError "EIO")
  ∧ store (scanAppendingHeaders Sample.brokenReader (Some 1%positive)
             (Sample.start (Sample.storeWith Sample.callerOptions))).2
    = Sample.storeWith Sample.callerOptions.
Proof.
  apply (scanAppendingHeaders_probe_rejects Sample.brokenReader 1%positive
           (Sample.start (Sample.storeWith Sample.callerOptions))
           (HostError "EIO")).
  left. reflexivity.
Defined.

Lemma parseBuffer_probe_rejects_witness :
  (parseBuffer (H := Sample.brokenHost) Sample.apeFile None (Some 1%positive)
     (Sample.start (Sample.storeWith Sample.callerOptions))).1
  = Rejected (HostError "EIO").
Proof.
  refine (proj1 (parseBuffer_probe_rejects (H := Sample.brokenHost)
                   Sample.apeFile None 1%positive
                   (Sample.start (Sample.storeWith Sample.callerOptions))
                   (HostError "EIO") _)).
  left. reflexivity.
Defined.

Lemma parseStream_adopts_options_size_witness :
  ∃ w1 tokenizer,
    parseStream Sample.audio None (Some 1%positive)
      (Sample.start (Sample.storeWith Sample.sizeOptions))
    = callOnStore (CallParseOnContentType tokenizer None (Some 1%positive))
        (parseOnContentType tokenizer None (Some 1%positive)) w1
    ∧ tokenizerObjects (store w1) !! tokenizer
      = Some (ITokenizer.set_fileSize (Some 100) (Trailer.fromStream Sample.audio)).
Proof.
  destruct (parseStream_adopts_options_size (H := bufferHost) Sample.audio None 1%positive
              Sample.sizeOptions
              (Sample.start (Sample.storeWith Sample.sizeOptions))
              eq_refl eq_refl eq_refl)
    as (w1 & tokenizer & Hrun & _ & Hhanded & _).
  exists w1, tokenizer. split; [exact Hrun | exact Hhanded].
Defined.

Lemma parseBuffer_keeps_tokenizer_size_witness :
  ∃ w1 tokenizer,
    parseBuffer Sample.apeFile None (Some 1%positive)
      (Sample.start (Sample.storeWith Sample.sizeOptions))
    = async (callOnStore (CallParseOnContentType tokenizer None (Some 1%positive))
               (parseOnContentType tokenizer None (Some 1%positive))) w1
    ∧ tokenizerObjects (store w1) !! tokenizer
      = Some (Trailer.fromBuffer Sample.apeFile).
Proof.
  assert ((scanAppendingHeaders (RandomBufferReader Sample.apeFile) (Some 1%positive)
             (Sample.start (Sample.storeWith Sample.sizeOptions))).1 = Ok tt)
    as Hscan by (vm_compute; reflexivity).
  assert (truthyNum (ITokenizer.fileSize (fromBuffer Sample.apeFile)) = true)
    as Hsize by (vm_compute; reflexivity).
  destruct (parseBuffer_keeps_tokenizer_size Sample.apeFile None 1%positive
              Sample.sizeOptions
              (Sample.start (Sample.storeWith Sample.sizeOptions))
              eq_refl Hsize Hscan)
    as (w1 & tokenizer & Hrun & _ & Hhanded).
  exists w1, tokenizer. split; [exact Hrun | exact Hhanded].
Defined.

Lemma parseBuffer_without_options_witness :
  ∃ w1 tokenizer l,
    parseBuffer Sample.apeFile None None
      (Sample.start (Sample.storeWith Sample.callerOptions))
    = async (callOnStore (CallParseOnContentType tokenizer None (Some l))
               (parseOnContentType tokenizer None (Some l))) w1
    ∧ optionObjects (store w1) !! l
      = Some (IOptions.set_apeOffset (Some 4) IOptions.empty).
Proof.
  assert ((trailerScan (RandomBufferReader Sample.apeFile)).1 = Ok (Some 4))
    as Hfound by (vm_compute; reflexivity).
  destruct (parseBuffer_without_options Sample.apeFile None
              (Sample.start (Sample.storeWith Sample.callerOptions))
              (Some 4) Hfound)
    as (w1 & tokenizer & l & Hrun & _ & Hoptions).
  exists w1, tokenizer, l. split; [exact Hrun|].
  rewrite Hoptions. apply lookup_insert_eq.
Defined.
